(** * Analysis Export visit codec of History Trends Unlimited exports

    A shallow embedding of [extensions/historytrends/analysis_export.go]
    ([checkURL], [parseTimes], [readAnalysisVisit], [writeAnalysisVisit])
    together with the small part of Go's [strings], [strconv] and [time]
    packages that these functions compute with.

    Conventions:
    - Go [int], [int64] and [time.Duration] are [Z]; [int] is taken to be
      64 bits wide, and arithmetic that can leave the 64-bit range is
      written with [wrap64].
    - A Go call returning [(T, error)] is a [result T]; [Err e] records
      which [return ..., err] statement of the source produced it.
    - The receiver [r *Reader] is threaded explicitly: a method that may
      assign to [r] returns the new [Reader] next to its result. *)

From Stdlib Require Import ZArith String Ascii List Bool Lia.
Import ListNotations.

Local Open Scope string_scope.
Local Open Scope Z_scope.

(* ================================================================== *)
(** * Errors and results *)

(** One constructor per failing [return] of the four functions, and one
    for the caller that hands them the columns of a record. *)
Inductive error : Type :=
| ErrURL                              (* err of url.Parse *)
| ErrHost (host h : string)           (* "%q differs from computed host %q" *)
| ErrPublicSuffix                     (* err of publicsuffix.EffectiveTLDPlusOne *)
| ErrDomain (domain tld1 : string)    (* "%q differs from computed eTLD+1 %q" *)
| ErrTimefmt                          (* err of timefmt.Parse *)
| ErrFractional (diff : Z)            (* "time difference is fractional: %s" *)
| ErrAtoi                             (* err of strconv.Atoi *)
| ErrWeekday (day d : Z)              (* "inconsistent weekday: %s and %s" *)
| ErrTimezone (offset tz : Z)         (* "%s differs from timezone offset %s" *)
| ErrTransition                       (* err of chrome.PageTransitionFromString *)
| ErrFieldCount.                      (* a record that has not 8 fields *)

Inductive result (A : Type) : Type :=
| Ok (a : A)
| Err (e : error).
Arguments Ok {A} a.
Arguments Err {A} e.

Definition bind {A B : Type} (m : result A) (k : A -> result B) : result B :=
  match m with
  | Ok a => k a
  | Err e => Err e
  end.

Notation "x <- m ;; k" := (bind m (fun x => k))
  (at level 61, m at next level, right associativity).

(** [orFail e o] turns the absence of a library result into the error [e]. *)
Definition orFail {A : Type} (e : error) (o : option A) : result A :=
  match o with
  | Some a => Ok a
  | None => Err e
  end.

Definition isOk {A : Type} (m : result A) : bool :=
  match m with Ok _ => true | Err _ => false end.

(** The error taxonomy of the design document, section 7.  The source
    returns plain [error] values; this is the class each of them falls in. *)
Inductive ErrorKind : Type :=
| MalformedField
| InconsistentRedundancy
| TimezoneDrift
| UnknownTransition.

Definition kind (e : error) : ErrorKind :=
  match e with
  | ErrURL | ErrPublicSuffix | ErrTimefmt | ErrAtoi | ErrFieldCount =>
      MalformedField
  | ErrHost _ _ | ErrDomain _ _ | ErrFractional _ | ErrWeekday _ _ =>
      InconsistentRedundancy
  | ErrTimezone _ _ => TimezoneDrift
  | ErrTransition => UnknownTransition
  end.

(* ================================================================== *)
(** * Package strings *)

Module strings.

(** [strings.IndexByte(s, c)]: index of the first [c] in [s], or -1. *)
Fixpoint IndexByte (s : string) (c : ascii) : Z :=
  match s with
  | EmptyString => -1
  | String a s' =>
      if Ascii.eqb a c then 0
      else let i := IndexByte s' c in
           if i =? -1 then -1 else i + 1
  end.

(** [strings.LastIndexByte(s, c)]. *)
Fixpoint LastIndexByte (s : string) (c : ascii) : Z :=
  match s with
  | EmptyString => -1
  | String a s' =>
      let i := LastIndexByte s' c in
      if i =? -1 then (if Ascii.eqb a c then 0 else -1) else i + 1
  end.

Fixpoint HasPrefix (s p : string) : bool :=
  match p, s with
  | EmptyString, _ => true
  | String b p', String a s' => Ascii.eqb a b && HasPrefix s' p'
  | String _ _, EmptyString => false
  end.

Fixpoint Contains (s p : string) : bool :=
  HasPrefix s p ||
  match s with
  | EmptyString => false
  | String _ s' => Contains s' p
  end.

Fixpoint rev_acc (s acc : string) : string :=
  match s with
  | EmptyString => acc
  | String a s' => rev_acc s' (String a acc)
  end.

Definition rev (s : string) : string := rev_acc s "".

Definition HasSuffix (s p : string) : bool := HasPrefix (rev s) (rev p).

(** The slices [s[:i]] and [s[i:]] for [0 <= i <= len(s)]. *)
Definition take (i : Z) (s : string) : string := substring 0 (Z.to_nat i) s.
Definition drop (i : Z) (s : string) : string :=
  substring (Z.to_nat i) (String.length s - Z.to_nat i) s.

Definition len (s : string) : Z := Z.of_nat (String.length s).

End strings.

(* ================================================================== *)
(** * Package strconv *)

Module strconv.

Definition isDigit (a : ascii) : bool :=
  let n := Z.of_nat (nat_of_ascii a) in (48 <=? n) && (n <=? 57).

Definition digitVal (a : ascii) : Z := Z.of_nat (nat_of_ascii a) - 48.

(** Value of a non-empty string of decimal digits. *)
Fixpoint digits_acc (s : string) (acc : Z) : option Z :=
  match s with
  | EmptyString => Some acc
  | String a s' =>
      if isDigit a then digits_acc s' (acc * 10 + digitVal a) else None
  end.

Definition digits (s : string) : option Z :=
  match s with
  | EmptyString => None
  | _ => digits_acc s 0
  end.

(** [strconv.Atoi]: an optional sign and at least one decimal digit;
    values outside the 64-bit range are a range error. *)
Definition Atoi (s : string) : option Z :=
  let signed :=
    match s with
    | String "-" s' => option_map Z.opp (digits s')
    | String "+" s' => digits s'
    | _ => digits s
    end in
  match signed with
  | Some n => if (- 2 ^ 63 <=? n) && (n <=? 2 ^ 63 - 1) then Some n else None
  | None => None
  end.

Definition digitChar (d : Z) : ascii := ascii_of_nat (Z.to_nat (48 + d)).

(** Decimal digits of a natural number, most significant first. *)
Fixpoint utoa (fuel : nat) (n : Z) (acc : string) : string :=
  match fuel with
  | O => acc
  | S fuel' =>
      let acc' := String (digitChar (n mod 10)) acc in
      if n <? 10 then acc' else utoa fuel' (n / 10) acc'
  end.

Definition fuelOf (n : Z) : nat := S (Z.to_nat (Z.log2 n)).

(** [strconv.Itoa]. *)
Definition Itoa (n : Z) : string :=
  if n <? 0 then String "-" (utoa (fuelOf (- n)) (- n) "")
  else utoa (fuelOf n) n "".

(** [n] printed with at least [w] digits, zero padded. *)
Fixpoint pad (w : nat) (n : Z) (acc : string) : string :=
  match w with
  | O => if n =? 0 then acc else append (Itoa n) acc
  | S w' => pad w' (n / 10) (String (digitChar (n mod 10)) acc)
  end.

End strconv.

(* ================================================================== *)
(** * Package time *)

Module time.

(** [time.Duration] is an [int64] count of nanoseconds. *)
Definition Duration := Z.

Definition Nanosecond : Duration := 1.
Definition Millisecond : Duration := 1000000.
Definition Second : Duration := 1000000000.

Definition minDuration : Duration := - 2 ^ 63.
Definition maxDuration : Duration := 2 ^ 63 - 1.

(** Two's complement reduction to [int64]. *)
Definition wrap64 (z : Z) : Z := (z + 2 ^ 63) mod 2 ^ 64 - 2 ^ 63.

(** A [*time.Location]: a name and the offset in seconds east of UTC in
    force at a given Unix time (what [Location.lookup] returns). *)
Record Location : Type := mkLocation {
  zoneName : string;
  lookup : Z -> Z
}.

Definition UTC : Location := mkLocation "UTC" (fun _ => 0).

(** [time.FixedZone(name, offset)]. *)
Definition FixedZone (name : string) (offset : Z) : Location :=
  mkLocation name (fun _ => offset).

(** A [time.Time] without monotonic reading: the instant, counted in
    nanoseconds since January 1, year 1 00:00:00 UTC (Go keeps it as
    seconds plus nanoseconds within the second), and the location.  The
    instant is not bounded here; Go's representation covers far more
    than the years any export can mention. *)
Record Time : Type := mkTime {
  nanos : Z;
  loc : Location
}.

(** [time.Time{}], the zero time: 0001-01-01 00:00:00 UTC, a Monday. *)
Definition zero : Time := mkTime 0 UTC.

Definition secondsPerDay : Z := 86400.

(** Seconds from the zero time to 1970-01-01 00:00:00 UTC. *)
Definition unixToInternal : Z := 62135596800.

Definition Unix (t : Time) : Z := nanos t / Second - unixToInternal.

Definition Add (t : Time) (d : Duration) : Time :=
  mkTime (nanos t + d) (loc t).

Definition In (t : Time) (l : Location) : Time := mkTime (nanos t) l.

Definition Equal (t u : Time) : bool := nanos t =? nanos u.
Definition Before (t u : Time) : bool := nanos t <? nanos u.

(** [t.Sub(u)]: the difference is computed in [int64]; when adding it
    back to [u] does not give [t] it has overflowed and the result is
    the minimum or maximum duration. *)
Definition Sub (t u : Time) : Duration :=
  let d := wrap64 (nanos t - nanos u) in
  if Equal (Add u d) t then d
  else if Before t u then minDuration
  else maxDuration.

(** [t.Truncate(d)] rounds down to a multiple of [d] since the zero
    time; a non-positive [d] leaves [t] unchanged. *)
Definition Truncate (t : Time) (d : Duration) : Time :=
  if d <=? 0 then t else Add t (- (nanos t mod d)).

(** Seconds since the zero time of the wall clock shown in [t]'s
    location. *)
Definition abs (t : Time) : Z :=
  nanos t / Second + lookup (loc t) (Unix t).

(** [t.Weekday()], with Sunday = 0. *)
Definition Weekday (t : Time) : Z := (abs t / secondsPerDay + 1) mod 7.

(** The UTC time whose clock reads what the clock of [t] reads in the
    location of [t], to the millisecond: what a printed local time
    stands for once it is read without a zone. *)
Definition wallMilli (t : Time) : Time :=
  mkTime (nanos (Truncate t Millisecond) + lookup (loc t) (Unix t) * Second)
         UTC.

End time.


(* ================================================================== *)
(** * Package net/url *)

Module url.

(** The fields of [url.URL] that a parsed address is read through
    ([User] is not needed by the codec and is left out). *)
Record URL : Type := mkURL {
  Scheme : string;
  Opaque : string;
  Host : string;       (* host or host:port *)
  Path : string;       (* decoded path *)
  RawQuery : string;
  Fragment : string
}.

(** [validOptionalPort]: empty, or a colon followed by digits. *)
Definition validOptionalPort (port : string) : bool :=
  match port with
  | EmptyString => true
  | String c rest =>
      Ascii.eqb c ":" &&
      (fix allDigits (s : string) : bool :=
         match s with
         | EmptyString => true
         | String b s' => strconv.isDigit b && allDigits s'
         end) rest
  end.

(** [splitHostPort], first component. *)
Definition splitHost (hostPort : string) : string :=
  let colon := strings.LastIndexByte hostPort ":" in
  let host :=
    if negb (colon =? -1) && validOptionalPort (strings.drop colon hostPort)
    then strings.take colon hostPort
    else hostPort in
  if strings.HasPrefix host "[" && strings.HasSuffix host "]"
  then strings.take (strings.len host - 2) (strings.drop 1 host)
  else host.

(** [u.Hostname()]: [u.Host] without a valid port and without the
    square brackets of an IP literal. *)
Definition Hostname (u : URL) : string := splitHost (Host u).

End url.

(* ================================================================== *)
(** * What the codec calls and this file does not define

    [net/url], [golang.org/x/net/publicsuffix] and the layout-driven
    parser and printer of [time] are libraries; [jsonutil/timefmt],
    [chrome] and [normalizeTitle] belong to this repository but are kept
    elsewhere.  The codec is written against their signatures, so that
    every statement about it holds whatever they compute.  [None] stands
    for a non-nil [error]. *)

Class Capabilities (PageTransition : Type) : Type := {
  (** [url.Parse(rawURL)] *)
  url_Parse : string -> option url.URL;
  (** [publicsuffix.EffectiveTLDPlusOne(domain)] *)
  EffectiveTLDPlusOne : string -> option string;
  (** [timefmt.Parse(s, timefmt.Milli, timefmt.Unix)] *)
  timefmt_Parse : string -> option time.Time;
  (** [timefmt.Format(t, timefmt.Milli, timefmt.Unix)] *)
  timefmt_Format : time.Time -> string;
  (** [time.Parse("2006-01-02 15:04:05.000", value)]: both results, the
      time and the error, as Go returns them. *)
  time_Parse : string -> time.Time * option string;
  (** [t.Format("2006-01-02 15:04:05.000")] *)
  time_Format : time.Time -> string;
  (** [chrome.PageTransitionFromString] and the [String] method of
      [chrome.PageTransition], the type [PageTransition] here *)
  PageTransitionFromString : string -> option PageTransition;
  PageTransition_String : PageTransition -> string;
  (** [normalizeTitle(title)] *)
  normalizeTitle : string -> string
}.

(* ================================================================== *)
(** * Package historytrends *)

Section Codec.

Context {PageTransition : Type} {C : Capabilities PageTransition}.

(** [Visit] of export.go. *)
Record Visit : Type := mkVisit {
  URL : string;
  VisitTime : time.Time;
  Transition : PageTransition;
  PageTitle : string
}.

(** The fields of [Reader] that [readAnalysisVisit] reads or assigns:
    the number of the record being read, the export time and the
    timezone offset of the export in seconds. *)
Record Reader : Type := mkReader {
  record : Z;
  time : time.Time;
  tz : Z
}.

(** The field of [Writer] that [writeAnalysisVisit] reads. *)
Record Writer : Type := mkWriter {
  loc : time.Location
}.

Definition checkURL (rawURL host domain : string) : result unit :=
  _ <- (if negb (host =? "")%string then
          u <- orFail ErrURL (url_Parse rawURL) ;;
          let h := url.Hostname u in
          if negb (h =? host)%string then
            (* When the URL path contains @, utils.extractHost in utils.js
               will erroneously return the segment after the @. *)
            if strings.IndexByte (url.Path u) "@" =? -1
            then Err (ErrHost host h)
            else Ok tt
          else Ok tt
        else Ok tt) ;;
  if negb (domain =? "")%string then
    tld1 <- orFail ErrPublicSuffix (EffectiveTLDPlusOne host) ;;
    if negb (tld1 =? domain)%string
    then Err (ErrDomain domain tld1)
    else Ok tt
  else Ok tt.

Definition parseTimes (timeMsec timeLocal weekday : string)
  : result (time.Time * Z) :=
  msec <- orFail ErrTimefmt (timefmt_Parse timeMsec) ;;
  (* local, err := time.Parse(...): err is assigned and not read before
     strconv.Atoi assigns it again *)
  let '(local, _) := time_Parse timeLocal in
  let diff := time.Sub (time.Truncate msec time.Millisecond) local in
  if negb (Z.rem diff time.Second =? 0) then Err (ErrFractional diff)
  else
    let offset := Z.quot diff time.Second in
    day <- orFail ErrAtoi (strconv.Atoi weekday) ;;
    let d := time.Weekday local in
    if negb (d =? day) then Err (ErrWeekday day d)
    else Ok (msec, offset).

(** The assignment to [r] in the middle of [readAnalysisVisit]: the
    first record sets the offset and moves the export time into the
    zone, any other record must agree with the offset. *)
Definition learnOffset (r : Reader) (offset : Z) : result Reader :=
  if record r =? 1 then
    let d := time.wrap64 (offset * time.Second) in
    let zone := time.FixedZone "" offset in
    Ok (mkReader (record r)
                 (time.In (time.Add (time r) (time.wrap64 (- d))) zone)
                 offset)
  else if negb (offset =? tz r) then Err (ErrTimezone offset (tz r))
  else Ok r.

(** [readAnalysisVisit] returns the reader as the call leaves it and
    the visit or the error. *)
Definition readAnalysisVisit (r : Reader)
    (rawURL host domain timeMsec timeLocal weekday transition title : string)
  : Reader * result Visit :=
  match checkURL rawURL host domain with
  | Err e => (r, Err e)
  | Ok _ =>
      match parseTimes timeMsec timeLocal weekday with
      | Err e => (r, Err e)
      | Ok (t, offset) =>
          match learnOffset r offset with
          | Err e => (r, Err e)
          | Ok r' =>
              (* The page transition string only contains the core type,
                 so qualifiers are lost. *)
              match PageTransitionFromString transition with
              | None => (r', Err ErrTransition)
              | Some typ =>
                  (r', Ok (mkVisit rawURL t typ (normalizeTitle title)))
              end
          end
      end
  end.

Definition writeAnalysisVisit (w : Writer) (v : Visit)
  : result (list string) :=
  u <- orFail ErrURL (url_Parse (URL v)) ;;
  let host := url.Hostname u in
  tld1 <- (if negb (strings.IndexByte host "." =? -1)
           then orFail ErrPublicSuffix (EffectiveTLDPlusOne host)
           else Ok "") ;;
  let local := time.In (VisitTime v) (loc w) in
  Ok [ URL v;
       host;
       tld1;
       timefmt_Format (VisitTime v);
       time_Format local;
       strconv.Itoa (time.Weekday local);
       PageTransition_String (Transition v);
       PageTitle v ].

(** Modelled from the spec: [decodeRecord(session, fields[8])], the
    entry point that hands the eight columns of a record to
    [readAnalysisVisit]; the method of [Reader] that does so lives in
    another file of the package. *)
Definition decodeRecord (r : Reader) (fields : list string)
  : Reader * result Visit :=
  match fields with
  | [rawURL; host; domain; timeMsec; timeLocal; weekday; transition; title] =>
      readAnalysisVisit r rawURL host domain timeMsec timeLocal weekday
                        transition title
  | _ => (r, Err ErrFieldCount)
  end.

(** What a decode session leaves behind: the reader, the visits produced
    in order, and the number of the record it stopped at with the error
    raised there, if any. *)
Record Session : Type := mkSession {
  reader : Reader;
  visits : list Visit;
  failure : option (Z * error)
}.

(** Modelled from the spec: the decode session over an ordered sequence
    of records, the loop around [readAnalysisVisit] that lives in another
    file of the package.  The record counter starts at 0 and counts the
    records read; it is advanced before a record is decoded, so that the
    first record is decoded with [record = 1] as [readAnalysisVisit]
    expects.  The session stops at the first failure and keeps the
    visits produced before it. *)
Fixpoint readAll (r : Reader) (rows : list (list string)) : Session :=
  match rows with
  | [] => mkSession r [] None
  | row :: rest =>
      let r1 := mkReader (record r + 1) (time r) (tz r) in
      match decodeRecord r1 row with
      | (r2, Err e) => mkSession r2 [] (Some (record r1, e))
      | (r2, Ok v) =>
          let s := readAll r2 rest in
          mkSession (reader s) (v :: visits s) (failure s)
      end
  end.

(** A reader before its first record, with the export time supplied
    from outside. *)
Definition NewReader (exportTime : time.Time) : Reader :=
  mkReader 0 exportTime 0.

(** ** Vocabulary of the statements below *)

(** The time that [parseTimes] calls [local]: the first result of
    [time.Parse], whether or not it came with an error. *)
Definition localOf (timeLocal : string) : time.Time :=
  fst (time_Parse timeLocal).

(** The duration that [parseTimes] calls [diff]. *)
Definition diffOf (msec : time.Time) (timeLocal : string) : Z :=
  time.Sub (time.Truncate msec time.Millisecond) (localOf timeLocal).

(** What a record says on its own, whatever the reader holds: the
    checks of [readAnalysisVisit] other than the comparison with the
    reader's offset, giving the visit and the offset of the record. *)
Definition resolve (fields : list string) : result (Visit * Z) :=
  match fields with
  | [rawURL; host; domain; timeMsec; timeLocal; weekday; transition; title] =>
      _ <- checkURL rawURL host domain ;;
      p <- parseTimes timeMsec timeLocal weekday ;;
      typ <- orFail ErrTransition (PageTransitionFromString transition) ;;
      Ok (mkVisit rawURL (fst p) typ (normalizeTitle title), snd p)
  | _ => Err ErrFieldCount
  end.

(** The reader that the first record leaves behind: the export time
    moved back by the offset and put in the zone of that offset, and
    the offset itself. *)
Definition adopted (r : Reader) (offset : Z) : Reader :=
  mkReader (record r)
           (time.In (time.Add (time r) (- (offset * time.Second)))
                    (time.FixedZone "" offset))
           offset.

(** A record that resolves with the given offset. *)
Definition resolvesWith (offset : Z) (row : list string) : Prop :=
  exists v, resolve row = Ok (v, offset).

(** The local time of a record, column 4. *)
Definition rowLocal (fields : list string) : time.Time :=
  localOf (nth 4 fields "").

(** Encoding [v] and decoding the columns with reader [r] gives [v]
    back. *)
Definition roundTrips (w : Writer) (r : Reader) (v : Visit) : Prop :=
  exists fields r',
    writeAnalysisVisit w v = Ok fields
    /\ decodeRecord r fields = (r', Ok v).

End Codec.

(* ================================================================== *)
(** * A reference instance of the capabilities

    Executable stand-ins for the callees, used to run the codec on
    concrete records.  Each one follows the behaviour of its original on
    the inputs it covers and says what it leaves out. *)

Module Ref.

(** ** net/url *)

(** [strings.Cut(s, sep)] for a one-byte separator. *)
Definition Cut (s : string) (sep : ascii) : string * string :=
  let i := strings.IndexByte s sep in
  if i =? -1 then (s, "") else (strings.take i s, strings.drop (i + 1) s).

Definition code (a : ascii) : Z := Z.of_nat (nat_of_ascii a).

Definition isAlpha (a : ascii) : bool :=
  ((97 <=? code a) && (code a <=? 122)) || ((65 <=? code a) && (code a <=? 90)).

Definition isCTL (a : ascii) : bool := (code a <? 32) || (code a =? 127).

Fixpoint any (p : ascii -> bool) (s : string) : bool :=
  match s with
  | EmptyString => false
  | String a s' => p a || any p s'
  end.

Definition toLower (a : ascii) : ascii :=
  if (65 <=? code a) && (code a <=? 90)
  then ascii_of_nat (nat_of_ascii a + 32) else a.

Fixpoint ToLower (s : string) : string :=
  match s with
  | EmptyString => ""
  | String a s' => String (toLower a) (ToLower s')
  end.

(** The scan of [getScheme]: [None] is "missing protocol scheme",
    [Some None] is an address without scheme, [Some (Some i)] has the
    colon that ends the scheme at index [i]. *)
Fixpoint scanScheme (s : string) (i : Z) : option (option Z) :=
  match s with
  | EmptyString => Some None
  | String c s' =>
      if isAlpha c then scanScheme s' (i + 1)
      else if strconv.isDigit c || Ascii.eqb c "+" || Ascii.eqb c "-"
              || Ascii.eqb c "."
      then (if i =? 0 then Some None else scanScheme s' (i + 1))
      else if Ascii.eqb c ":"
      then (if i =? 0 then None else Some (Some i))
      else Some None
  end.

Definition getScheme (rawURL : string) : option (string * string) :=
  match scanScheme rawURL 0 with
  | None => None
  | Some None => Some ("", rawURL)
  | Some (Some i) => Some (strings.take i rawURL, strings.drop (i + 1) rawURL)
  end.

(** Bytes that [parseHost] accepts unescaped in a host. *)
Definition hostByte (a : ascii) : bool :=
  isAlpha a || strconv.isDigit a || (128 <=? code a) ||
  negb (strings.IndexByte "!$&'()*+,;=:[]<>-_.~" a =? -1) ||
  (code a =? 34).

(** Bytes that [validUserinfo] accepts. *)
Definition userinfoByte (a : ascii) : bool :=
  isAlpha a || strconv.isDigit a ||
  negb (strings.IndexByte "-._:~!$&'()*+,;=%@" a =? -1).

Definition parseHost (host : string) : option string :=
  if strings.HasPrefix host "[" then None
  else
    let i := strings.LastIndexByte host ":" in
    if negb (i =? -1) && negb (url.validOptionalPort (strings.drop i host))
    then None
    else if any (fun a => negb (hostByte a)) host then None
    else Some host.

Definition parseAuthority (authority : string) : option string :=
  let i := strings.LastIndexByte authority "@" in
  if i <? 0 then parseHost authority
  else
    match parseHost (strings.drop (i + 1) authority) with
    | None => None
    | Some host =>
        if any (fun a => negb (userinfoByte a)) (strings.take i authority)
        then None else Some host
    end.

(** [url.Parse] on addresses without percent escapes and without
    bracketed IP literals.  Such addresses are reported as errors here,
    whereas [net/url] decodes them; everything else follows [Parse] and
    [parse]: the fragment is cut off, control characters are refused,
    the scheme is split off and lowered, the query is cut off, a
    rootless rest after a scheme is opaque, a first path segment with a
    colon is refused, and an authority is split into user and host. *)
Definition Parse (rawURL : string) : option url.URL :=
  let '(u, frag) := Cut rawURL "#" in
  if any (fun a => Ascii.eqb a "%") rawURL then None
  else if any isCTL u then None
  else if (u =? "*")%string then Some (url.mkURL "" "" "" "*" "" frag)
  else
    match getScheme u with
    | None => None
    | Some (scheme, rest0) =>
        let scheme := ToLower scheme in
        let '(rest, query) := Cut rest0 "?" in
        if negb (strings.HasPrefix rest "/") && negb (scheme =? "")%string
        then Some (url.mkURL scheme rest "" "" query frag)
        else if negb (strings.HasPrefix rest "/")
                && negb (strings.IndexByte (fst (Cut rest "/")) ":" =? -1)
        then None
        else if (negb (scheme =? "")%string
                 || negb (strings.HasPrefix rest "///"))
                && strings.HasPrefix rest "//"
        then
          let auth := strings.drop 2 rest in
          let i := strings.IndexByte auth "/" in
          let '(authority, path) :=
            if 0 <=? i then (strings.take i auth, strings.drop i auth)
            else (auth, "") in
          match parseAuthority authority with
          | None => None
          | Some host => Some (url.mkURL scheme "" host path query frag)
          end
        else Some (url.mkURL scheme "" "" rest query frag)
    end.

(** ** golang.org/x/net/publicsuffix *)

(** A few rules of the public suffix list. *)
Definition rules : list string :=
  ["com"; "org"; "net"; "io"; "uk"; "co.uk"; "org.uk"; "jp"; "co.jp"].

Definition matches (domain rule : string) : bool :=
  (domain =? rule)%string || strings.HasSuffix domain (String "." rule).

(** [PublicSuffix]: the longest rule that matches, or the last label. *)
Definition PublicSuffix (domain : string) : string :=
  fold_left
    (fun best rule =>
       if matches domain rule && (strings.len best <? strings.len rule)
       then rule else best)
    rules
    (strings.drop (1 + strings.LastIndexByte domain ".") domain).

Definition byteAt (s : string) (i : Z) : option ascii :=
  String.get (Z.to_nat i) s.

(** [EffectiveTLDPlusOne], as the library defines it over
    [PublicSuffix]. *)
Definition EffectiveTLDPlusOne (domain : string) : option string :=
  if strings.HasPrefix domain "." || strings.HasSuffix domain "."
     || strings.Contains domain ".."
  then None
  else
    let suffix := PublicSuffix domain in
    if strings.len domain <=? strings.len suffix then None
    else
      let i := strings.len domain - strings.len suffix - 1 in
      match byteAt domain i with
      | Some "."%char =>
          Some (strings.drop
                  (1 + strings.LastIndexByte (strings.take i domain) ".")
                  domain)
      | _ => None
      end.

(** ** time, for the layout "2006-01-02 15:04:05.000" *)

Definition isLeap (y : Z) : bool :=
  (y mod 4 =? 0) && (negb (y mod 100 =? 0) || (y mod 400 =? 0)).

Definition daysIn (m y : Z) : Z :=
  if m =? 2 then (if isLeap y then 29 else 28)
  else if (m =? 4) || (m =? 6) || (m =? 9) || (m =? 11) then 30
  else 31.

(** Days from January 1 of year 1 to January 1 of year [y]. *)
Definition daysBeforeYear (y : Z) : Z :=
  365 * (y - 1) + (y - 1) / 4 - (y - 1) / 100 + (y - 1) / 400.

(** Days from January 1 to the first of month [m] in year [y]. *)
Definition daysBeforeMonth (m y : Z) : Z :=
  nth (Z.to_nat (m - 1))
      [0; 31; 59; 90; 120; 151; 181; 212; 243; 273; 304; 334] 0
  + (if (2 <? m) && isLeap y then 1 else 0).

(** [time.Date(y, m, d, hh, mm, ss, ms * 1e6, time.UTC)]. *)
Definition Date (y m d hh mm ss ms : Z) : time.Time :=
  let days := daysBeforeYear y + daysBeforeMonth m y + (d - 1) in
  time.mkTime
    ((((days * 24 + hh) * 60 + mm) * 60 + ss) * time.Second
     + ms * time.Millisecond)
    time.UTC.

(** Year, month and day of the day that is [days] days after January 1
    of year 1. *)
Definition civil (days : Z) : Z * Z * Z :=
  let z := days + 306 in
  let era := z / 146097 in
  let doe := z - era * 146097 in
  let yoe := (doe - doe / 1460 + doe / 36524 - doe / 146096) / 365 in
  let doy := doe - (365 * yoe + yoe / 4 - yoe / 100) in
  let mp := (5 * doy + 2) / 153 in
  let d := doy - (153 * mp + 2) / 5 + 1 in
  let m := if mp <? 10 then mp + 3 else mp - 9 in
  let y := yoe + era * 400 + (if m <=? 2 then 1 else 0) in
  (y, m, d).

(** The number written by [s] when [s] is exactly [w] digits. *)
Definition fixedNum (w : nat) (s : string) : option Z :=
  if (String.length s =? w)%nat then strconv.digits s else None.

(** [time.Parse] for the layout above, read strictly: four, two and two
    digits of the date, a space, two digits each for hour, minute and
    second, a period and three digits, every field in its range.
    ([time.Parse] also takes a one-digit hour and a comma for the
    period.)  A value that does not parse gives the zero time and an
    error. *)
Definition time_Parse (value : string) : time.Time * option string :=
  let bad := (time.zero, Some "parsing time") in
  let sub := fun i n => substring (Z.to_nat i) (Z.to_nat n) value in
  if negb (String.length value =? 23)%nat then bad
  else if negb ((sub 4 1 =? "-") && (sub 7 1 =? "-") && (sub 10 1 =? " ")
                && (sub 13 1 =? ":") && (sub 16 1 =? ":")
                && (sub 19 1 =? "."))%string then bad
  else
    match fixedNum 4 (sub 0 4), fixedNum 2 (sub 5 2), fixedNum 2 (sub 8 2),
          fixedNum 2 (sub 11 2), fixedNum 2 (sub 14 2),
          fixedNum 2 (sub 17 2), fixedNum 3 (sub 20 3) with
    | Some y, Some m, Some d, Some hh, Some mm, Some ss, Some ms =>
        if (1 <=? m) && (m <=? 12) && (1 <=? d) && (d <=? daysIn m y)
           && (hh <? 24) && (mm <? 60) && (ss <? 60)
        then (Date y m d hh mm ss ms, None)
        else bad
    | _, _, _, _, _, _, _ => bad
    end.

(** [t.Format] for the layout above: the wall clock of [t] in its
    location, milliseconds truncated. *)
Definition time_Format (t : time.Time) : string :=
  let ms := (time.nanos t mod time.Second) / time.Millisecond in
  let sec := time.abs t in
  let '(y, m, d) := civil (sec / time.secondsPerDay) in
  let s := sec mod time.secondsPerDay in
  let year := if y <? 0 then String "-" (strconv.pad 4 (- y) "")
              else strconv.pad 4 y "" in
  (year ++ "-" ++ strconv.pad 2 m "" ++ "-" ++ strconv.pad 2 d "" ++ " "
   ++ strconv.pad 2 (s / 3600) "" ++ ":" ++ strconv.pad 2 (s mod 3600 / 60) ""
   ++ ":" ++ strconv.pad 2 (s mod 60) "" ++ "." ++ strconv.pad 3 ms "")%string.

(** ** jsonutil/timefmt *)

Fixpoint allDigits (s : string) : bool :=
  match s with
  | EmptyString => true
  | String a s' => strconv.isDigit a && allDigits s'
  end.

(** The first [w] digits of a decimal fraction, zero padded to [w]
    digits, as a number. *)
Fixpoint fracDigits (w : nat) (s : string) (acc : Z) : Z :=
  match w with
  | O => acc
  | S w' =>
      match s with
      | EmptyString => fracDigits w' "" (acc * 10)
      | String a s' => fracDigits w' s' (acc * 10 + strconv.digitVal a)
      end
  end.

(** Modelled from the spec: [timefmt.Parse(s, timefmt.Milli,
    timefmt.Unix)], which "parses a fractional-millisecond Unix epoch
    timestamp (sub-millisecond precision retained)", column 3 being
    "decimal Unix-epoch milliseconds, fractional allowed".  A decimal
    number with an optional minus sign and an optional fraction is read
    as milliseconds since 1970-01-01 00:00:00 UTC; six digits of the
    fraction make the nanoseconds. *)
Definition timefmt_Parse (s : string) : option time.Time :=
  let '(neg, body) :=
    match s with
    | String "-" s' => (true, s')
    | _ => (false, s)
    end in
  let i := strings.IndexByte body "." in
  let '(whole, frac) :=
    if i =? -1 then (body, "0")
    else (strings.take i body, strings.drop (i + 1) body) in
  match strconv.digits whole with
  | None => None
  | Some ms =>
      if allDigits frac && negb (frac =? "")%string then
        let n := ms * time.Millisecond + fracDigits 6 frac 0 in
        Some (time.mkTime
                (time.unixToInternal * time.Second + (if neg then - n else n))
                time.UTC)
      else None
  end.

Fixpoint dropZeros (s : string) : string :=
  match s with
  | String "0" s' => dropZeros s'
  | _ => s
  end.

(** Modelled from the spec: [timefmt.Format(t, timefmt.Milli,
    timefmt.Unix)], the "formatMillisecondEpoch" of the encoder: the
    milliseconds since the Unix epoch in decimal, followed by the
    nanoseconds within the millisecond as a fraction when there are
    any. *)
Definition timefmt_Format (t : time.Time) : string :=
  let n := time.nanos t - time.unixToInternal * time.Second in
  let a := Z.abs n in
  let whole := strconv.Itoa (a / time.Millisecond) in
  let frac := a mod time.Millisecond in
  let body :=
    if frac =? 0 then whole
    else (whole ++ "."
          ++ strings.rev (dropZeros (strings.rev (strconv.pad 6 frac ""))))%string in
  if n <? 0 then String "-" body else body.

(** ** chrome *)

(** Modelled from the spec: [chrome.PageTransition], the "enumerated
    page-transition type (core type only)", with its "string token from
    a fixed vocabulary"; the tokens are those of the browser's history
    interface. *)
Inductive PageTransition : Type :=
| Link | Typed | AutoBookmark | AutoSubframe | ManualSubframe | Generated
| AutoToplevel | FormSubmit | Reload | Keyword | KeywordGenerated.

Definition vocabulary : list (string * PageTransition) :=
  [ ("link", Link); ("typed", Typed); ("auto_bookmark", AutoBookmark);
    ("auto_subframe", AutoSubframe); ("manual_subframe", ManualSubframe);
    ("generated", Generated); ("auto_toplevel", AutoToplevel);
    ("form_submit", FormSubmit); ("reload", Reload); ("keyword", Keyword);
    ("keyword_generated", KeywordGenerated) ].

Definition PageTransitionFromString (s : string) : option PageTransition :=
  option_map snd (find (fun e => (fst e =? s)%string) vocabulary).

Definition PageTransition_String (t : PageTransition) : string :=
  match t with
  | Link => "link" | Typed => "typed" | AutoBookmark => "auto_bookmark"
  | AutoSubframe => "auto_subframe" | ManualSubframe => "manual_subframe"
  | Generated => "generated" | AutoToplevel => "auto_toplevel"
  | FormSubmit => "form_submit" | Reload => "reload" | Keyword => "keyword"
  | KeywordGenerated => "keyword_generated"
  end.

(** ** normalizeTitle *)

Fixpoint dropSpaces (s : string) : string :=
  match s with
  | String " " s' => dropSpaces s'
  | _ => s
  end.

Fixpoint mapBytes (f : ascii -> ascii) (s : string) : string :=
  match s with
  | EmptyString => ""
  | String a s' => String (f a) (mapBytes f s')
  end.

(** Modelled from the spec: [normalizeTitle], which is to "trim/replace
    control characters per the title-normalization policy": control
    characters become spaces and the spaces at both ends are dropped. *)
Definition normalizeTitle (title : string) : string :=
  let spaced := mapBytes (fun a => if isCTL a then " "%char else a) title in
  strings.rev (dropSpaces (strings.rev (dropSpaces spaced))).

(** Central Standard Time as a fixed zone, six hours west of UTC. *)
Definition CST : time.Location := time.FixedZone "CST" (- 21600).

End Ref.

(** The capabilities as modelled in [Ref]. *)
Definition reference : Capabilities Ref.PageTransition := {|
  url_Parse := Ref.Parse;
  EffectiveTLDPlusOne := Ref.EffectiveTLDPlusOne;
  timefmt_Parse := Ref.timefmt_Parse;
  timefmt_Format := Ref.timefmt_Format;
  time_Parse := Ref.time_Parse;
  time_Format := Ref.time_Format;
  PageTransitionFromString := Ref.PageTransitionFromString;
  PageTransition_String := Ref.PageTransition_String;
  normalizeTitle := Ref.normalizeTitle
|}.


(** * Sample records, run with the reference capabilities *)

Module Sample.

Definition Visit := @Visit Ref.PageTransition.

(** The visit of the format description: 1384634958041.754 ms, which
    is 2013-11-16 14:49:18.041 six hours west of UTC, a Saturday. *)
Definition instantA : time.Time :=
  time.mkTime ((1384634958 + time.unixToInternal) * time.Second + 41754000)
              time.UTC.

Definition visitA : Visit :=
  @mkVisit Ref.PageTransition "https://sub.example.com/a?b#c" instantA Ref.Link
           "Example Domain".

Definition rowA : list string :=
  [ "https://sub.example.com/a?b#c"; "sub.example.com"; "example.com";
    "1384634958041.754"; "2013-11-16 14:49:18.041"; "6"; "link";
    "Example Domain" ].

(** An hour later, same zone. *)
Definition rowB : list string :=
  [ "http://localhost/"; "localhost"; ""; "1384638558500";
    "2013-11-16 15:49:18.500"; "6"; "typed"; "" ].

Definition visitB : Visit :=
  @mkVisit Ref.PageTransition "http://localhost/"
           (time.mkTime ((1384638558 + time.unixToInternal) * time.Second
                         + 500000000) time.UTC)
           Ref.Typed "".

(** The same instant as [rowB], with a local time five hours west. *)
Definition rowC : list string :=
  [ "http://localhost/"; "localhost"; ""; "1384638558500";
    "2013-11-16 16:49:18.500"; "6"; "typed"; "" ].

Definition writerCST : Writer := mkWriter Ref.CST.
Definition writerUTC : Writer := mkWriter time.UTC.

(** The export time as a container would give it, taken as UTC. *)
Definition exportTime : time.Time := Ref.Date 2013 11 17 9 30 0 0.

(** A reader at its first record and one at its second. *)
Definition readerFirst : Reader := mkReader 1 exportTime 0.
Definition readerSecond : Reader := mkReader 2 exportTime 21600.

(** A visit to a host written as a fully qualified name, with the
    final period. *)
Definition visitDot : Visit :=
  @mkVisit Ref.PageTransition "https://example.com./" instantA Ref.Link
           "Example Domain".

(** A visit on the first day of the year 10000. *)
Definition visitY10K : Visit :=
  @mkVisit Ref.PageTransition "https://example.com/" (Ref.Date 10000 1 1 0 0 0 0)
           Ref.Link "Example Domain".

End Sample.

(* ================================================================== *)
(** * Package historytrends: [ExportType] of export.go *)

(** [ExportType] is a [uint8]; the values below are those that the
    [iota] declaration gives. *)
Definition AnalysisExport : Z := 1.
Definition ArchivedExport : Z := 2.

(** [typ.String()].  [fmt.Sprintf("export(%d)", typ)] prints the byte in
    decimal. *)
Definition ExportType_String (typ : Z) : string :=
  if typ =? AnalysisExport then "analysis"
  else if typ =? ArchivedExport then "archived"
  else ("export(" ++ strconv.Itoa typ ++ ")")%string.

(** The values of a [uint8]. *)
Definition uint8s : list Z := map Z.of_nat (seq 0 256).

(* ================================================================== *)
(** * Package jsonutil: decode.go *)

Module jsonutil.

(** [isSpace(c)]. *)
Definition isSpace (c : ascii) : bool :=
  (Z.of_nat (nat_of_ascii c) <=? 32)
  && (Ascii.eqb c " " || Ascii.eqb c "009" || Ascii.eqb c "013"
      || Ascii.eqb c "010").

(** The [error] that a call of [Read] returns. *)
Inductive ioerr : Type :=
| noErr                (* nil *)
| EOF                  (* io.EOF *)
| otherErr (msg : string).

(** What one call of [br.Read(buf[:])] returns: the bytes [buf[:n]] and
    the error. *)
Record ReadResult : Type := mkRead {
  data : list ascii;
  err : ioerr
}.

(** An [io.Reader], by what its successive calls of [Read] return. *)
Definition Reader : Type := nat -> ReadResult.

(** The errors that [decode] returns: that of the JSON decoder, or
    "json: invalid trailing character: %q". *)
Inductive decodeError : Type :=
| ErrDecode (msg : string)
| ErrTrailing (b : ascii).

(** The first byte of [buf[:n]] that is not white space: the inner loop
    of [decode]. *)
Fixpoint firstNonSpace (bs : list ascii) : option ascii :=
  match bs with
  | [] => None
  | b :: bs' => if negb (isSpace b) then Some b else firstNonSpace bs'
  end.

(** The [for] loop of [decode] from its [k]-th call of [Read] on: [None]
    when it has not returned within [fuel] calls, otherwise the error it
    returns, if any. *)
Fixpoint trailing (br : Reader) (k : nat) (fuel : nat)
  : option (option decodeError) :=
  match fuel with
  | O => None
  | S fuel' =>
      match err (br k) with
      | EOF => Some None
      | _ =>
          match firstNonSpace (data (br k)) with
          | Some b => Some (Some (ErrTrailing b))
          | None => trailing br (S k) fuel'
          end
      end
  end.

(** [decode(r, v, readAll)]: [decoded] is what [d.Decode(v)] returns and
    [br] is the reader made of what the decoder has buffered and of the
    rest of [r].  The result is the error returned, if any, and whether
    the rest of [r] has been read and discarded. *)
Definition decode (decoded : option string) (br : Reader) (readAll : bool)
    (fuel : nat) : option (option decodeError * bool) :=
  match decoded with
  | Some msg => Some (Some (ErrDecode msg), readAll)
  | None =>
      match trailing br 0 fuel with
      | None => None
      | Some None => Some (None, false)
      | Some (Some e) => Some (Some e, readAll)
      end
  end.

(** [Decode(r, v)]. *)
Definition Decode (decoded : option string) (br : Reader) (fuel : nat)
  : option (option decodeError * bool) :=
  decode decoded br true fuel.

(** Bytes that are all white space. *)
Definition spaces (bs : list ascii) : Prop :=
  Forall (fun b => isSpace b = true) bs.

(** The bytes of the calls of [Read] before the [k]-th, in order. *)
Fixpoint before (br : Reader) (k : nat) : list ascii :=
  match k with
  | O => []
  | S k' => before br k' ++ data (br k')
  end.

(** The [k]-th call of [Read] is the first to return [io.EOF]. *)
Definition firstEOF (br : Reader) (k : nat) : Prop :=
  err (br k) = EOF /\ forall i, (i < k)%nat -> err (br i) <> EOF.

End jsonutil.

(* ================================================================== *)
(** * Package takeout *)

Module takeout.

(** [Export]. *)
Record Export : Type := mkExport {
  Time : time.Time;
  Ext : string;
  Parts : list string
}.

(** The errors of [Open] and [Walk]. *)
Inductive error : Type :=
| ErrNotExport (base : string)     (* "takeout: path is not an export: %s" *)
| ErrSequence (seq : string)       (* "takeout: archive not first in sequence: %s" *)
| ErrTimestamp                     (* "takeout: archive timestamp: %w" *)
| ErrGlob                          (* err of filepath.Glob *)
| ErrExtension (ext : string)      (* "takeout: illegal extension: %s" *)
| ErrWalk (msg : string).          (* err of archive.WalkZip or archive.WalkTgz *)

(** A call returns a value, returns an error, or panics on a slice out
    of range. *)
Inductive outcome (A : Type) : Type :=
| Return (a : A)
| Fail (e : error)
| Panic.
Arguments Return {A} a.
Arguments Fail {A} e.
Arguments Panic {A}.

(** The slice [s[lo:hi]], which needs [0 <= lo <= hi <= len(s)]. *)
Definition slice (s : string) (lo hi : Z) : option string :=
  if (0 <=? lo) && (lo <=? hi) && (hi <=? strings.len s)
  then Some (substring (Z.to_nat lo) (Z.to_nat (hi - lo)) s)
  else None.

(** [n] decimal digits at the head of [s], and what follows them. *)
Fixpoint digitsThen (n : nat) (s : string) : option string :=
  match n with
  | O => Some s
  | S n' =>
      match s with
      | String c s' => if strconv.isDigit c then digitsThen n' s' else None
      | EmptyString => None
      end
  end.

(** The text [p] at the head of [s], and what follows it. *)
Fixpoint literalThen (p s : string) : option string :=
  match p with
  | EmptyString => Some s
  | String a p' =>
      match s with
      | String c s' => if Ascii.eqb c a then literalThen p' s' else None
      | EmptyString => None
      end
  end.

Definition andThen (o : option string) (f : string -> option string)
  : option string :=
  match o with
  | Some s => f s
  | None => None
  end.

(** [exportPattern.MatchString(s)] for the pattern
    [^takeout-\d{8}T\d{6}Z-\d{3}\.(?:tgz|zip)$]. *)
Definition exportPattern (s : string) : bool :=
  match andThen (andThen (andThen (andThen (andThen (andThen
          (literalThen "takeout-" s)
          (digitsThen 8)) (literalThen "T")) (digitsThen 6))
          (literalThen "Z-")) (digitsThen 3)) (literalThen ".") with
  | Some ext => (ext =? "tgz")%string || (ext =? "zip")%string
  | None => false
  end.

(** [filepath.Base(path)] where the separator is the slash and there are
    no volume names. *)
Fixpoint stripSlashes (rev_path : string) : string :=
  match rev_path with
  | String "/" s => stripSlashes s
  | _ => rev_path
  end.

Fixpoint lastElement (rev_path : string) : string :=
  match rev_path with
  | EmptyString => ""
  | String c s => if Ascii.eqb c "/" then "" else String c (lastElement s)
  end.

Definition Base (path : string) : string :=
  if (path =? "")%string then "."
  else
    let e := strings.rev (lastElement (stripSlashes (strings.rev path))) in
    if (e =? "")%string then "/" else e.

Section Open.

(** [time.Parse("20060102T150405Z", value)] and [filepath.Glob(pattern)]. *)
Variable ParseTimestamp : string -> option time.Time.
Variable Glob : string -> option (list string).

Definition Open (filename : string) : outcome Export :=
  let base := Base filename in
  if negb (exportPattern base) then Fail (ErrNotExport base)
  else
    match slice base 8 24, slice base 25 28,
          slice base 29 (strings.len base) with
    | Some timestamp, Some seq, Some ext =>
        if negb (seq =? "001")%string then Fail (ErrSequence seq)
        else
          match ParseTimestamp timestamp with
          | None => Fail ErrTimestamp
          | Some t =>
              match slice filename 0 (strings.len filename
                                      - strings.len "-001.ext") with
              | None => Panic
              | Some stem =>
                  let glob := (stem ++ "-???." ++ ext)%string in
                  match Glob glob with
                  | None => Fail ErrGlob
                  | Some parts => Return (mkExport t ext parts)
                  end
              end
          end
    | _, _, _ => Panic
    end.

End Open.

Section Walk.

(** [archive.WalkZip(part, walk)] and [archive.WalkTgz(part, walk)], by
    the error they return. *)
Variable WalkZip WalkTgz : string -> option string.

(** The loop of [Walk] over the parts: the parts the walker has been
    called on, in order, and the error returned, if any. *)
Fixpoint walkParts (walker : string -> option string) (parts : list string)
  : list string * option error :=
  match parts with
  | [] => ([], None)
  | part :: rest =>
      match walker part with
      | Some msg => ([part], Some (ErrWalk msg))
      | None =>
          let '(seen, e) := walkParts walker rest in (part :: seen, e)
      end
  end.

(** [ex.Walk(walk)]. *)
Definition Walk (ex : Export) : list string * option error :=
  if (Ext ex =? "zip")%string then walkParts WalkZip (Parts ex)
  else if (Ext ex =? "tgz")%string then walkParts WalkTgz (Parts ex)
  else ([], Some (ErrExtension (Ext ex))).

End Walk.

End takeout.

(** ** Sample values for the packages above *)

Module Sample2.

(** A reader that sends white space in its first result, white space and
    a closing brace in the second, and then reports the end. *)
Definition spaceThenBrace : jsonutil.Reader :=
  fun k =>
    match k with
    | O => jsonutil.mkRead [" "; "010"]%char jsonutil.noErr
    | S O => jsonutil.mkRead [" "; "}"; " "]%char jsonutil.noErr
    | _ => jsonutil.mkRead [] jsonutil.EOF
    end.

(** A reader that sends a line end and then reports the end. *)
Definition newlineThenEOF : jsonutil.Reader :=
  fun k =>
    match k with
    | O => jsonutil.mkRead ["010"]%char jsonutil.noErr
    | _ => jsonutil.mkRead [] jsonutil.EOF
    end.

(** A reader that sends a line end and then reports the end with a
    byte in the same result. *)
Definition newlineThenByteAtEOF : jsonutil.Reader :=
  fun k =>
    match k with
    | O => jsonutil.mkRead ["010"]%char (jsonutil.otherErr "short read")
    | _ => jsonutil.mkRead ["x"]%char jsonutil.EOF
    end.

(** A reader that fails on every call without ever reporting the end. *)
Definition alwaysFailing : jsonutil.Reader :=
  fun _ => jsonutil.mkRead [] (jsonutil.otherErr "connection reset").

(** The timestamp layout of the archive names, read as far as the
    sample below needs it: one timestamp is known. *)
Definition parseTimestamp (value : string) : option time.Time :=
  if (value =? "20210607T100000Z")%string
  then Some (Ref.Date 2021 6 7 10 0 0 0) else None.

(** A directory that holds the two parts of one export. *)
Definition glob (pattern : string) : option (list string) :=
  if (pattern =? "/data/takeout-20210607T100000Z-???.zip")%string
  then Some [ "/data/takeout-20210607T100000Z-001.zip";
              "/data/takeout-20210607T100000Z-002.zip" ]
  else Some [].

Definition archiveName : string := "/data/takeout-20210607T100000Z-001.zip".

End Sample2.

(* ================================================================== *)
(** * Arithmetic of durations and times *)

Module time_facts.
Import time.

Lemma wrap64_range (z : Z) : minDuration <= wrap64 z <= maxDuration.
Proof.
  unfold wrap64, minDuration, maxDuration.
  pose proof (Z.mod_pos_bound (z + 2 ^ 63) (2 ^ 64) ltac:(lia)). lia.
Qed.

Lemma wrap64_id (z : Z) :
  minDuration <= z <= maxDuration -> wrap64 z = z.
Proof.
  unfold wrap64, minDuration, maxDuration. intros H.
  rewrite Z.mod_small by lia. lia.
Qed.

(** [Sub] is the exact difference when that fits a duration, and one of
    the two extreme durations otherwise. *)
Lemma Sub_cases (t u : Time) :
  (minDuration <= nanos t - nanos u <= maxDuration
   /\ Sub t u = nanos t - nanos u)
  \/ (nanos t - nanos u < minDuration /\ Sub t u = minDuration)
  \/ (maxDuration < nanos t - nanos u /\ Sub t u = maxDuration).
Proof.
  unfold Sub, Equal, Before, Add; cbn [nanos loc].
  pose proof (wrap64_range (nanos t - nanos u)) as Hr.
  destruct (Z.eqb_spec (nanos u + wrap64 (nanos t - nanos u)) (nanos t))
    as [He | Hne].
  - left. split; lia.
  - assert (Hout : ~ (minDuration <= nanos t - nanos u <= maxDuration)).
    { intros Hin. apply Hne. rewrite (wrap64_id _ Hin). lia. }
    destruct (Z.ltb_spec (nanos t) (nanos u)).
    + right; left. split; [ | reflexivity ].
      unfold minDuration, maxDuration in *. lia.
    + right; right. split; [ | reflexivity ].
      unfold minDuration, maxDuration in *. lia.
Qed.

(** Neither extreme duration is a whole number of seconds, so a
    difference that is one has not overflowed. *)
Lemma Sub_whole_seconds (t u : Time) :
  Z.rem (Sub t u) Second = 0 ->
  Sub t u = nanos t - nanos u
  /\ minDuration < nanos t - nanos u <= maxDuration.
Proof.
  intros Hrem.
  destruct (Sub_cases t u) as [[Hin He] | [[_ He] | [_ He]]].
  - split; [ exact He | ].
    assert (nanos t - nanos u <> minDuration).
    { intros Hmin. rewrite He, Hmin in Hrem. vm_compute in Hrem. discriminate. }
    lia.
  - rewrite He in Hrem. vm_compute in Hrem. discriminate.
  - rewrite He in Hrem. vm_compute in Hrem. discriminate.
Qed.

Lemma rem_quot_exact (d : Z) :
  Z.rem d Second = 0 -> Z.quot d Second * Second = d.
Proof.
  intros H. pose proof (Z.quot_rem' d Second). lia.
Qed.

Lemma Truncate_Millisecond (t : Time) :
  Truncate t Millisecond
  = mkTime (nanos t - nanos t mod Millisecond) (loc t).
Proof. unfold Truncate, Add. cbn. f_equal. Qed.

(** Dropping the part of a millisecond does not change the second. *)
Lemma div_Second_Truncate (n : Z) :
  (n - n mod Millisecond) / Second = n / Second.
Proof.
  unfold Millisecond, Second.
  symmetry. apply (Z.div_unique_pos _ _ _ (n mod 1000000000 - n mod 1000000)).
  - pose proof (Z.mod_pos_bound n 1000000000 ltac:(lia)).
    pose proof (Z.mod_pos_bound n 1000000 ltac:(lia)).
    assert (Hm : (n mod 1000000000) mod 1000000 = n mod 1000000).
    { replace 1000000000 with (1000000 * 1000) by lia.
      rewrite Z.rem_mul_r by lia.
      rewrite (Z.mul_comm 1000000 ((n / 1000000) mod 1000)).
      rewrite Z.mod_add by lia. apply Z.mod_mod. lia. }
    pose proof (Z.mod_le (n mod 1000000000) 1000000 ltac:(lia) ltac:(lia)).
    lia.
  - pose proof (Z.div_mod n 1000000000 ltac:(lia)). lia.
Qed.

Lemma Weekday_range (t : Time) : 0 <= Weekday t < 7.
Proof. unfold Weekday. apply Z.mod_pos_bound. lia. Qed.

End time_facts.

Module strconv_facts.
Import strconv.

(** A weekday printed by [Itoa] is read back by [Atoi]. *)
Lemma Atoi_Itoa_weekday (d : Z) : 0 <= d < 7 -> Atoi (Itoa d) = Some d.
Proof.
  intros H.
  assert (Hd : d = 0 \/ d = 1 \/ d = 2 \/ d = 3 \/ d = 4 \/ d = 5 \/ d = 6)
    by lia.
  repeat (destruct Hd as [-> | Hd]; [ reflexivity | ]).
  subst d. reflexivity.
Qed.

End strconv_facts.

(* ================================================================== *)
(** * Time resolution: [parseTimes] *)

Section ParseTimes.

Context {PageTransition : Type} {C : Capabilities PageTransition}.

(** [parseTimes] step by step, once the epoch field has parsed. *)
Lemma parseTimes_unfold (timeMsec timeLocal weekday : string) (msec : time.Time) :
  timefmt_Parse timeMsec = Some msec ->
  parseTimes timeMsec timeLocal weekday =
    let diff := diffOf msec timeLocal in
    if negb (Z.rem diff time.Second =? 0) then Err (ErrFractional diff)
    else
      match strconv.Atoi weekday with
      | None => Err ErrAtoi
      | Some day =>
          if negb (time.Weekday (localOf timeLocal) =? day)
          then Err (ErrWeekday day (time.Weekday (localOf timeLocal)))
          else Ok (msec, Z.quot diff time.Second)
      end.
Proof.
  intros Hm. unfold parseTimes, diffOf, localOf. rewrite Hm. cbn.
  destruct (time_Parse timeLocal) as [local err]. cbn.
  destruct (negb _); [ reflexivity | ].
  destruct (strconv.Atoi weekday); reflexivity.
Qed.

(** Everything a successful [parseTimes] has checked. *)
Lemma parseTimes_Ok_inv (timeMsec timeLocal weekday : string)
      (t : time.Time) (offset : Z) :
  parseTimes timeMsec timeLocal weekday = Ok (t, offset) ->
  timefmt_Parse timeMsec = Some t
  /\ Z.rem (diffOf t timeLocal) time.Second = 0
  /\ offset = Z.quot (diffOf t timeLocal) time.Second
  /\ strconv.Atoi weekday = Some (time.Weekday (localOf timeLocal)).
Proof.
  intros H.
  destruct (timefmt_Parse timeMsec) as [msec | ] eqn:Hm.
  - rewrite (parseTimes_unfold _ _ _ _ Hm) in H. cbn zeta in H.
    destruct (Z.eqb_spec (Z.rem (diffOf msec timeLocal) time.Second) 0)
      as [Hrem | ]; cbn in H; [ | discriminate ].
    destruct (strconv.Atoi weekday) as [day | ]; [ | discriminate ].
    destruct (Z.eqb_spec (time.Weekday (localOf timeLocal)) day)
      as [Hd | ]; cbn in H; [ | discriminate ].
    inversion H; subst. auto.
  - unfold parseTimes in H. rewrite Hm in H. discriminate.
Qed.

(** The offset of a successful [parseTimes] is the exact distance, in
    seconds, from the local time to the instant truncated to the
    millisecond. *)
Lemma parseTimes_Ok_offset (timeMsec timeLocal weekday : string)
      (t : time.Time) (offset : Z) :
  parseTimes timeMsec timeLocal weekday = Ok (t, offset) ->
  time.nanos (time.Truncate t time.Millisecond)
  = time.nanos (localOf timeLocal) + offset * time.Second
  /\ time.minDuration < offset * time.Second <= time.maxDuration.
Proof.
  intros H. apply parseTimes_Ok_inv in H as (_ & Hrem & -> & _).
  rewrite (time_facts.rem_quot_exact _ Hrem).
  unfold diffOf in *.
  destruct (time_facts.Sub_whole_seconds _ _ Hrem) as [-> Hr]. lia.
Qed.

(** A failure of either check is a failure of [readAnalysisVisit], and
    the reader is handed back as it was. *)
Lemma readAnalysisVisit_checkURL_Err (r : Reader)
      (rawURL host domain timeMsec timeLocal weekday transition title : string)
      (e : error) :
  checkURL rawURL host domain = Err e ->
  readAnalysisVisit r rawURL host domain timeMsec timeLocal weekday
                    transition title = (r, Err e).
Proof. intros H. unfold readAnalysisVisit. rewrite H. reflexivity. Qed.

Lemma readAnalysisVisit_parseTimes_Err (r : Reader)
      (rawURL host domain timeMsec timeLocal weekday transition title : string) :
  isOk (parseTimes timeMsec timeLocal weekday) = false ->
  exists e,
    readAnalysisVisit r rawURL host domain timeMsec timeLocal weekday
                      transition title = (r, Err e).
Proof.
  intros H. unfold readAnalysisVisit.
  destruct (checkURL rawURL host domain) as [ [] | e1 ]; [ | eauto ].
  destruct (parseTimes timeMsec timeLocal weekday) as [ p | e2 ];
    [ discriminate | eauto ].
Qed.

(** [parseTimes] looks at the time that [time.Parse] returns and at
    nothing else of its result. *)
Lemma parseTimes_same_local (timeMsec timeLocal timeLocal' weekday : string) :
  localOf timeLocal = localOf timeLocal' ->
  parseTimes timeMsec timeLocal weekday = parseTimes timeMsec timeLocal' weekday.
Proof.
  intros H. destruct (timefmt_Parse timeMsec) as [msec | ] eqn:Hm.
  - rewrite !(parseTimes_unfold _ _ _ _ Hm). unfold diffOf. rewrite H.
    reflexivity.
  - unfold parseTimes. rewrite Hm. reflexivity.
Qed.

(** The fractional-difference check of [parseTimes] fails on the
    duration [diff], and the failure is one of [readAnalysisVisit]. *)
Lemma parseTimes_fractional_Err
    (timeMsec timeLocal weekday : string) (msec : time.Time) :
  timefmt_Parse timeMsec = Some msec ->
  Z.rem (diffOf msec timeLocal) time.Second <> 0 ->
  parseTimes timeMsec timeLocal weekday
  = Err (ErrFractional (diffOf msec timeLocal))
  /\ forall r rawURL host domain transition title,
       exists e,
         readAnalysisVisit r rawURL host domain timeMsec timeLocal
                           weekday transition title = (r, Err e).
Proof.
  intros Hm Hrem.
  assert (Hp : parseTimes timeMsec timeLocal weekday
               = Err (ErrFractional (diffOf msec timeLocal))).
  { rewrite (parseTimes_unfold _ _ _ _ Hm). cbn zeta.
    destruct (Z.eqb_spec (Z.rem (diffOf msec timeLocal) time.Second) 0);
      [ contradiction | ].
    reflexivity. }
  split; [ exact Hp | ].
  intros. apply readAnalysisVisit_parseTimes_Err. rewrite Hp. reflexivity.
Qed.

(** C6.  Let [d] be the exact difference between the epoch field,
    truncated to the millisecond, and the time that [time.Parse] returns
    for the local-time field, and [diff] the duration that [time.Sub]
    makes of it.  When [d] is not a whole number of seconds,
    [parseTimes] fails with the fractional difference error and so does
    [readAnalysisVisit].  When [d] does not fit a duration, [diff] is
    the smallest or the largest duration and both fail in the same way,
    also for a [d] of whole seconds.  When [d] is a whole number of
    seconds and fits a duration, any result of [parseTimes] carries the
    instant of the epoch field and that number of seconds as the offset;
    the result is produced as soon as the weekday field agrees. *)
Theorem parseTimes_fractional_difference
    (timeMsec timeLocal weekday : string) (msec : time.Time) :
  timefmt_Parse timeMsec = Some msec ->
  let d := time.nanos (time.Truncate msec time.Millisecond)
           - time.nanos (localOf timeLocal) in
  let diff := diffOf msec timeLocal in
  let fails :=
    parseTimes timeMsec timeLocal weekday = Err (ErrFractional diff)
    /\ forall r rawURL host domain transition title,
         exists e,
           readAnalysisVisit r rawURL host domain timeMsec timeLocal
                             weekday transition title = (r, Err e) in
  (Z.rem d time.Second <> 0 -> fails)
  /\ (d < time.minDuration \/ time.maxDuration < d ->
        diff = (if d <? 0 then time.minDuration else time.maxDuration)
        /\ fails)
  /\ (Z.rem d time.Second = 0 ->
      time.minDuration <= d <= time.maxDuration ->
        diff = d
        /\ (forall t offset,
              parseTimes timeMsec timeLocal weekday = Ok (t, offset) ->
              t = msec /\ offset * time.Second = d)
        /\ (strconv.Atoi weekday = Some (time.Weekday (localOf timeLocal)) ->
              parseTimes timeMsec timeLocal weekday
              = Ok (msec, Z.quot d time.Second))).
Proof.
  intros Hm d diff fails.
  pose proof (parseTimes_fractional_Err timeMsec timeLocal weekday msec Hm)
    as Hfail.
  fold diff in Hfail.
  assert (Hmin : Z.rem time.minDuration time.Second <> 0)
    by (vm_compute; discriminate).
  assert (Hmax : Z.rem time.maxDuration time.Second <> 0)
    by (vm_compute; discriminate).
  destruct (time_facts.Sub_cases (time.Truncate msec time.Millisecond)
                                 (localOf timeLocal))
    as [[Hin He] | [[Hlow He] | [Hhigh He]]];
    fold (diffOf msec timeLocal) in He; fold diff in He; fold d in He.
  - fold d in Hin. split; [ | split ].
    + intros Hrem. apply Hfail. rewrite He. exact Hrem.
    + intros [H | H]; lia.
    + intros Hrem _. split; [ exact He | ]. split.
      * intros t offset H.
        apply parseTimes_Ok_inv in H as (Ht & Hr & -> & _).
        rewrite Hm in Ht. injection Ht as <-. split; [ reflexivity | ].
        fold diff in Hr |- *. rewrite <- He.
        apply time_facts.rem_quot_exact. exact Hr.
      * intros Hw. rewrite (parseTimes_unfold _ _ _ _ Hm). cbn zeta.
        fold diff. rewrite He, Hrem, Hw. cbn. rewrite Z.eqb_refl.
        reflexivity.
  - fold d in Hlow.
    assert (Hf : fails) by (apply Hfail; rewrite He; exact Hmin).
    split; [ | split ].
    + intros _. exact Hf.
    + intros _. split; [ | exact Hf ].
      destruct (Z.ltb_spec d 0) as [ | Hge ]; [ exact He | ].
      unfold time.minDuration in Hlow. lia.
    + intros _ Hr. lia.
  - fold d in Hhigh.
    assert (Hf : fails) by (apply Hfail; rewrite He; exact Hmax).
    split; [ | split ].
    + intros _. exact Hf.
    + intros _. split; [ | exact Hf ].
      destruct (Z.ltb_spec d 0) as [ Hlt | ]; [ | exact He ].
      unfold time.maxDuration in Hhigh. lia.
    + intros _ Hr. lia.
Qed.


End ParseTimes.

(* ================================================================== *)
(** * URL, host and domain: [checkURL] and the columns of
      [writeAnalysisVisit] *)

Module strings_facts.
Import strings.

Lemma IndexByte_lower (s : string) (c : ascii) : -1 <= IndexByte s c.
Proof.
  induction s as [ | a s IH ]; cbn; [ lia | ].
  destruct (Ascii.eqb a c); [ lia | ].
  destruct (Z.eqb_spec (IndexByte s c) (-1)); lia.
Qed.

(** [IndexByte] is -1 exactly on the strings that do not contain the
    byte. *)
Lemma IndexByte_absent (s : string) (c : ascii) :
  IndexByte s c = -1 <-> ~ In c (list_ascii_of_string s).
Proof.
  induction s as [ | a s IH ]; cbn.
  - tauto.
  - pose proof (IndexByte_lower s c).
    destruct (Ascii.eqb_spec a c) as [-> | Hne].
    + split; [ lia | tauto ].
    + destruct (Z.eqb_spec (IndexByte s c) (-1)) as [He | Hn].
      * split; [ intros _ [ | ]; tauto | reflexivity ].
      * split; [ lia | intros Hno; exfalso; apply Hn, IH; tauto ].
Qed.

End strings_facts.

Section URLChecks.

Context {PageTransition : Type} {C : Capabilities PageTransition}.

Lemma eqb_nonempty (s : string) : s <> "" -> negb (s =? "")%string = true.
Proof. intros H. apply negb_true_iff, String.eqb_neq. exact H. Qed.

(** With a blank host field [checkURL] does not look at the URL. *)
Lemma checkURL_blank_host (rawURL rawURL' domain : string) :
  checkURL rawURL "" domain = checkURL rawURL' "" domain.
Proof. reflexivity. Qed.

Lemma checkURL_blank (rawURL : string) : checkURL rawURL "" "" = Ok tt.
Proof. reflexivity. Qed.

(** C4, amended.  When the host field is not blank and the URL field
    does not parse, [checkURL] fails with the error of [url.Parse]
    whatever the domain field holds, and so does [readAnalysisVisit],
    which leaves the reader as it was. *)
Theorem checkURL_unparseable (rawURL host domain : string) :
  host <> "" ->
  url_Parse rawURL = None ->
  checkURL rawURL host domain = Err ErrURL
  /\ forall r timeMsec timeLocal weekday transition title,
       readAnalysisVisit r rawURL host domain timeMsec timeLocal weekday
                         transition title = (r, Err ErrURL).
Proof.
  intros Hhost Hparse.
  assert (H : checkURL rawURL host domain = Err ErrURL).
  { unfold checkURL. rewrite (eqb_nonempty _ Hhost), Hparse. reflexivity. }
  split; [ exact H | ].
  intros. apply readAnalysisVisit_checkURL_Err. exact H.
Qed.

(** C5.  For a host field that is not blank and a URL that parses,
    [checkURL] gets past the host comparison exactly when the hostname
    of the URL is the host field or the path of the URL contains an
    at sign: with a blank domain field that is when it succeeds, and
    with any domain field the host error is returned exactly in the
    other case. *)
Theorem checkURL_host_comparison (rawURL host : string) (u : url.URL) :
  host <> "" ->
  url_Parse rawURL = Some u ->
  let tolerated :=
    url.Hostname u = host \/ strings.IndexByte (url.Path u) "@" <> -1 in
  (checkURL rawURL host "" = Ok tt <-> tolerated)
  /\ (forall domain,
        checkURL rawURL host domain = Err (ErrHost host (url.Hostname u))
        <-> ~ tolerated).
Proof.
  intros Hhost Hparse tolerated. subst tolerated.
  unfold checkURL. rewrite (eqb_nonempty _ Hhost), Hparse. cbn.
  destruct (String.eqb_spec (url.Hostname u) host) as [He | Hne]; cbn.
  - split.
    + split; [ auto | reflexivity ].
    + intros domain.
      split; [ | tauto ].
      destruct (negb (domain =? "")%string); [ | discriminate ].
      destruct (EffectiveTLDPlusOne host) as [tld1 | ]; cbn;
        [ | discriminate ].
      destruct (negb (tld1 =? domain)%string); discriminate.
  - destruct (Z.eqb_spec (strings.IndexByte (url.Path u) "@") (-1))
      as [Hat | Hat]; cbn.
    + split.
      * split; [ discriminate | intros [ | ]; contradiction ].
      * intros domain. split; [ intros _ [ | ]; contradiction | reflexivity ].
    + split.
      * split; [ auto | reflexivity ].
      * intros domain.
        split; [ | tauto ].
        destruct (negb (domain =? "")%string); [ | discriminate ].
        destruct (EffectiveTLDPlusOne host) as [tld1 | ]; cbn;
          [ | discriminate ].
        destruct (negb (tld1 =? domain)%string); discriminate.
Qed.

(** C8.  For a visit whose URL parses, [writeAnalysisVisit] writes the
    hostname in column 1 and, in column 2, the empty string when the
    hostname has no period and the effective TLD+1 of the hostname when
    it has one; if the hostname has a period and no effective TLD+1 can
    be derived, nothing is written and the error is returned. *)
Theorem writeAnalysisVisit_domain (w : Writer) (v : Visit) (u : url.URL) :
  url_Parse (URL v) = Some u ->
  let host := url.Hostname u in
  (strings.IndexByte host "." = -1 ->
     exists fields,
       writeAnalysisVisit w v = Ok fields
       /\ nth_error fields 1 = Some host
       /\ nth_error fields 2 = Some "")
  /\ (strings.IndexByte host "." <> -1 ->
      forall tld1, EffectiveTLDPlusOne host = Some tld1 ->
        exists fields,
          writeAnalysisVisit w v = Ok fields
          /\ nth_error fields 1 = Some host
          /\ nth_error fields 2 = Some tld1)
  /\ (strings.IndexByte host "." <> -1 ->
      EffectiveTLDPlusOne host = None ->
      writeAnalysisVisit w v = Err ErrPublicSuffix).
Proof.
  intros Hparse host. unfold writeAnalysisVisit. rewrite Hparse. cbn.
  fold host.
  destruct (Z.eqb_spec (strings.IndexByte host ".") (-1)) as [Hdot | Hdot];
    cbn.
  - split; [ | split ]; try (intros; contradiction).
    intros _. eexists. split; [ reflexivity | ]. split; reflexivity.
  - split; [ | split ]; try (intros; contradiction).
    + intros _ tld1 ->. cbn.
      eexists. split; [ reflexivity | ]. split; reflexivity.
    + intros _ ->. reflexivity.
Qed.

End URLChecks.

(* ================================================================== *)
(** * The reader across records: [readAnalysisVisit] *)

Section Reading.

Context {PageTransition : Type} {C : Capabilities PageTransition}.

Lemma learnOffset_next (r : Reader) (offset : Z) :
  record r <> 1 ->
  learnOffset r offset
  = if offset =? tz r then Ok r else Err (ErrTimezone offset (tz r)).
Proof.
  intros H. unfold learnOffset.
  destruct (Z.eqb_spec (record r) 1); [ contradiction | ].
  destruct (offset =? tz r); reflexivity.
Qed.

Lemma learnOffset_first (r : Reader) (offset : Z) :
  record r = 1 ->
  time.minDuration < offset * time.Second <= time.maxDuration ->
  learnOffset r offset = Ok (adopted r offset).
Proof.
  intros H Hr. unfold learnOffset, adopted. rewrite H. cbn.
  rewrite (time_facts.wrap64_id (offset * time.Second)) by lia.
  rewrite (time_facts.wrap64_id (- (offset * time.Second)))
    by (unfold time.minDuration, time.maxDuration in *; lia).
  reflexivity.
Qed.

(** Only the branch of the first record assigns to the reader. *)
Lemma readAnalysisVisit_reader_unchanged (r : Reader)
    (rawURL host domain timeMsec timeLocal weekday transition title : string) :
  record r <> 1 ->
  fst (readAnalysisVisit r rawURL host domain timeMsec timeLocal weekday
                         transition title) = r.
Proof.
  intros H. unfold readAnalysisVisit.
  destruct (checkURL rawURL host domain); [ | reflexivity ].
  destruct (parseTimes timeMsec timeLocal weekday) as [[t offset] | ];
    [ | reflexivity ].
  rewrite (learnOffset_next _ _ H).
  destruct (offset =? tz r); [ | reflexivity ].
  destruct (PageTransitionFromString transition); reflexivity.
Qed.

(** C9.  A call of [readAnalysisVisit] with a record counter other than
    1 hands the reader back unchanged, in particular its timezone
    offset and its export time, whether it returns a visit or an
    error. *)
Theorem readAnalysisVisit_frame (r : Reader)
    (rawURL host domain timeMsec timeLocal weekday transition title : string) :
  record r <> 1 ->
  let r' := fst (readAnalysisVisit r rawURL host domain timeMsec timeLocal
                                   weekday transition title) in
  tz r' = tz r /\ time r' = time r /\ r' = r.
Proof.
  intros H r'. subst r'.
  rewrite (readAnalysisVisit_reader_unchanged _ _ _ _ _ _ _ _ _ H). auto.
Qed.

(** C10.  On the first record the reader is assigned before the
    transition is decoded: when the URL and time checks pass and the
    transition is not known, [readAnalysisVisit] returns the error of
    the transition together with a reader that already carries the
    offset of the record and the shifted export time, which is a
    different reader whenever the offset differs from the one held
    before. *)
Theorem readAnalysisVisit_first_not_atomic (r : Reader)
    (rawURL host domain timeMsec timeLocal weekday transition title : string)
    (t : time.Time) (offset : Z) :
  record r = 1 ->
  checkURL rawURL host domain = Ok tt ->
  parseTimes timeMsec timeLocal weekday = Ok (t, offset) ->
  PageTransitionFromString transition = None ->
  readAnalysisVisit r rawURL host domain timeMsec timeLocal weekday
                    transition title
  = (adopted r offset, Err ErrTransition)
  /\ tz (adopted r offset) = offset
  /\ time (adopted r offset)
     = time.In (time.Add (time r) (- (offset * time.Second)))
               (time.FixedZone "" offset)
  /\ (offset <> tz r -> adopted r offset <> r).
Proof.
  intros Hrec Hurl Htimes Htr.
  destruct (parseTimes_Ok_offset _ _ _ _ _ Htimes) as [_ Hrange].
  repeat split.
  - unfold readAnalysisVisit.
    rewrite Hurl, Htimes, (learnOffset_first _ _ Hrec Hrange), Htr.
    reflexivity.
  - intros Hne Heq. apply Hne. rewrite <- Heq. reflexivity.
Qed.

(** ** One record against the reader, in terms of [resolve] *)

Ltac eight row :=
  destruct row as [ | ? [ | ? [ | ? [ | ? [ | ? [ | ? [ | ? [ | ? [ | ? ? ]]]]]]]]];
  try discriminate.

Lemma resolve_inv (row : list string) (v : Visit) (offset : Z) :
  resolve row = Ok (v, offset) ->
  exists rawURL host domain timeMsec timeLocal weekday transition title typ,
    row = [rawURL; host; domain; timeMsec; timeLocal; weekday; transition; title]
    /\ checkURL rawURL host domain = Ok tt
    /\ parseTimes timeMsec timeLocal weekday = Ok (VisitTime v, offset)
    /\ PageTransitionFromString transition = Some typ
    /\ v = mkVisit rawURL (VisitTime v) typ (normalizeTitle title).
Proof.
  intros H. eight row. unfold resolve in H.
  destruct (checkURL s s0 s1) as [ [] | ] eqn:Hu; [ | discriminate ].
  destruct (parseTimes s2 s3 s4) as [ [t o] | ] eqn:Ht; [ | discriminate ].
  destruct (PageTransitionFromString s5) as [ typ | ] eqn:Hp; [ | discriminate ].
  cbn in H. inversion H; subst. cbn.
  do 9 eexists. repeat split; eauto.
Qed.

Lemma decodeRecord_first (r : Reader) (row : list string) (v : Visit) (offset : Z) :
  record r = 1 ->
  resolve row = Ok (v, offset) ->
  decodeRecord r row = (adopted r offset, Ok v).
Proof.
  intros Hrec H.
  destruct (resolve_inv _ _ _ H)
    as (rawURL & host & domain & timeMsec & timeLocal & weekday & transition
        & title & typ & -> & Hu & Ht & Hp & Hv).
  destruct (parseTimes_Ok_offset _ _ _ _ _ Ht) as [_ Hrange].
  cbn. unfold readAnalysisVisit.
  rewrite Hu, Ht, (learnOffset_first _ _ Hrec Hrange), Hp, <- Hv.
  reflexivity.
Qed.

Lemma decodeRecord_next (r : Reader) (row : list string) (v : Visit) (offset : Z) :
  record r <> 1 ->
  resolve row = Ok (v, offset) ->
  decodeRecord r row
  = (r, if offset =? tz r then Ok v else Err (ErrTimezone offset (tz r))).
Proof.
  intros Hrec H.
  destruct (resolve_inv _ _ _ H)
    as (rawURL & host & domain & timeMsec & timeLocal & weekday & transition
        & title & typ & -> & Hu & Ht & Hp & Hv).
  cbn. unfold readAnalysisVisit.
  rewrite Hu, Ht, (learnOffset_next _ _ Hrec).
  destruct (offset =? tz r); [ | reflexivity ].
  rewrite Hp, <- Hv. reflexivity.
Qed.

(** A later record that passes the URL and time checks with an offset
    other than the reader's is refused with the timezone error, before
    its transition is looked at. *)
Lemma readAnalysisVisit_drift (r : Reader)
    (rawURL host domain timeMsec timeLocal weekday transition title : string)
    (t : time.Time) (offset : Z) :
  record r <> 1 ->
  checkURL rawURL host domain = Ok tt ->
  parseTimes timeMsec timeLocal weekday = Ok (t, offset) ->
  offset <> tz r ->
  readAnalysisVisit r rawURL host domain timeMsec timeLocal weekday
                    transition title
  = (r, Err (ErrTimezone offset (tz r))).
Proof.
  intros Hrec Hu Ht Hne. unfold readAnalysisVisit.
  rewrite Hu, Ht, (learnOffset_next _ _ Hrec).
  destruct (Z.eqb_spec offset (tz r)); [ contradiction | reflexivity ].
Qed.

Lemma decodeRecord_frame (r : Reader) (row : list string) :
  record r <> 1 -> fst (decodeRecord r row) = r.
Proof.
  intros H. unfold decodeRecord.
  eight row; try reflexivity.
  apply (readAnalysisVisit_reader_unchanged r s s0 s1 s2 s3 s4 s5 s6 H).
Qed.

(** The instant of a resolved record, cut to the millisecond, is its
    local time plus its offset. *)
Lemma resolve_instant (row : list string) (v : Visit) (offset : Z) :
  resolve row = Ok (v, offset) ->
  time.nanos (time.Truncate (VisitTime v) time.Millisecond)
  = time.nanos (rowLocal row) + offset * time.Second.
Proof.
  intros H.
  destruct (resolve_inv _ _ _ H)
    as (rawURL & host & domain & timeMsec & timeLocal & weekday & transition
        & title & typ & -> & Hu & Ht & Hp & Hv).
  apply (parseTimes_Ok_offset _ _ _ _ _ Ht).
Qed.

End Reading.

(* ================================================================== *)
(** * Decode sessions *)

Section Sessions.

Context {PageTransition : Type} {C : Capabilities PageTransition}.

(** After the first record the reader keeps its offset and export time
    to the end of the session, however the session ends. *)
Lemma readAll_keeps_offset (rows : list (list string)) (r : Reader) :
  1 <= record r ->
  tz (reader (readAll r rows)) = tz r
  /\ time (reader (readAll r rows)) = time r.
Proof.
  revert r. induction rows as [ | row rest IH ]; intros r Hrec; cbn.
  - auto.
  - set (r1 := mkReader (record r + 1) (time r) (tz r)).
    assert (H1 : record r1 <> 1) by (cbn; lia).
    pose proof (decodeRecord_frame r1 row H1) as Hf.
    destruct (decodeRecord r1 row) as [r2 [v | e]]; cbn in Hf; subst r2; cbn.
    + apply (IH r1). cbn. lia.
    + auto.
Qed.

(** Records that all resolve with the offset the reader holds are all
    decoded, to the visits they resolve to. *)
Lemma readAll_same_offset (rows : list (list string)) (r : Reader) :
  1 <= record r ->
  Forall (resolvesWith (tz r)) rows ->
  failure (readAll r rows) = None
  /\ Forall2 (fun row v => resolve row = Ok (v, tz r))
             rows (visits (readAll r rows)).
Proof.
  revert r. induction rows as [ | row rest IH ]; intros r Hrec Hall; cbn.
  - split; [ reflexivity | constructor ].
  - inversion Hall as [ | ? ? [v Hv] Hrest ]; subst.
    set (r1 := mkReader (record r + 1) (time r) (tz r)).
    assert (H1 : record r1 <> 1) by (cbn; lia).
    rewrite (decodeRecord_next r1 row v (tz r) H1 Hv). cbn.
    rewrite Z.eqb_refl.
    destruct (IH r1 ltac:(cbn; lia) Hrest) as [Hnone Hvis]. cbn.
    split; [ exact Hnone | ]. constructor; assumption.
Qed.

Lemma Forall2_instant (offset : Z) (rows : list (list string)) (vs : list Visit) :
  Forall2 (fun row v => resolve row = Ok (v, offset)) rows vs ->
  Forall2 (fun row v =>
             resolve row = Ok (v, offset)
             /\ time.nanos (time.Truncate (VisitTime v) time.Millisecond)
                = time.nanos (rowLocal row) + offset * time.Second)
          rows vs.
Proof.
  induction 1 as [ | row v rows vs H _ IH ]; constructor; [ | exact IH ].
  split; [ exact H | apply (resolve_instant _ _ _ H) ].
Qed.

(** C2, amended.  Let the first record of a session resolve with offset
    [O].  The reader then holds [O] to the end of the session, whatever
    follows.  If every later record resolves with [O] too, the session
    does not fail, it produces one visit per record, and the instant of
    each visit, cut to the millisecond, is the local time of its record
    plus [O] seconds.  If the second record passes the URL and time
    checks with another offset, the session fails at record 2 with the
    timezone error, after the visit of record 1 and no other. *)
Theorem readAll_offset_learned_once
    (exportTime : time.Time) (row1 : list string) (v1 : Visit) (O : Z)
    (rest : list (list string)) :
  resolve row1 = Ok (v1, O) ->
  let s := readAll (NewReader exportTime) (row1 :: rest) in
  tz (reader s) = O
  /\ (Forall (resolvesWith O) rest ->
        failure s = None
        /\ length (visits s) = length (row1 :: rest)
        /\ Forall2 (fun row v =>
                      resolve row = Ok (v, O)
                      /\ time.nanos (time.Truncate (VisitTime v) time.Millisecond)
                         = time.nanos (rowLocal row) + O * time.Second)
                   (row1 :: rest) (visits s))
  /\ (forall rawURL host domain timeMsec timeLocal weekday transition title
             t2 O2 rest',
        rest = [rawURL; host; domain; timeMsec; timeLocal; weekday;
                transition; title] :: rest' ->
        checkURL rawURL host domain = Ok tt ->
        parseTimes timeMsec timeLocal weekday = Ok (t2, O2) ->
        O2 <> O ->
        failure s = Some (2, ErrTimezone O2 O)
        /\ visits s = [v1]
        /\ kind (ErrTimezone O2 O) = TimezoneDrift).
Proof.
  intros H1 s. subst s. cbn [readAll NewReader record time tz].
  set (r1 := mkReader (0 + 1) exportTime 0).
  rewrite (decodeRecord_first r1 row1 v1 O eq_refl H1).
  set (r2 := adopted r1 O).
  assert (Hrec : 1 <= record r2) by (cbn; lia).
  split; [ | split ].
  - cbn. apply (readAll_keeps_offset rest r2 Hrec).
  - intros Hall.
    destruct (readAll_same_offset rest r2 Hrec Hall) as [Hnone Hvis]. cbn.
    split; [ exact Hnone | ].
    assert (Hall2 : Forall2 (fun row v => resolve row = Ok (v, O))
                            (row1 :: rest) (v1 :: visits (readAll r2 rest)))
      by (constructor; assumption).
    split.
    + symmetry. apply (Forall2_length Hall2).
    + apply Forall2_instant. exact Hall2.
  - intros rawURL host domain timeMsec timeLocal weekday transition title
           t2 O2 rest' -> Hu Ht Hne.
    cbn [readAll decodeRecord].
    set (r3 := mkReader (record r2 + 1) (time r2) (tz r2)).
    assert (H3 : record r3 <> 1) by (cbn; lia).
    rewrite (readAnalysisVisit_drift r3 _ _ _ _ _ _ transition title t2 O2
               H3 Hu Ht Hne).
    cbn. auto.
Qed.

End Sessions.

(* ================================================================== *)
(** * Encoding and decoding a visit *)

Section RoundTrip.

Context {PageTransition : Type} {C : Capabilities PageTransition}.

(** Time fields that describe one instant and its local time at a
    whole number of seconds from it, with the weekday of the local
    time, are resolved to that instant and that offset. *)
Lemma parseTimes_true_offset
      (timeMsec timeLocal weekday : string) (msec : time.Time) (offset : Z) :
  timefmt_Parse timeMsec = Some msec ->
  time.nanos (time.Truncate msec time.Millisecond)
  = time.nanos (localOf timeLocal) + offset * time.Second ->
  time.minDuration <= offset * time.Second <= time.maxDuration ->
  strconv.Atoi weekday = Some (time.Weekday (localOf timeLocal)) ->
  parseTimes timeMsec timeLocal weekday = Ok (msec, offset).
Proof.
  intros Hm Hn Hr Hw.
  assert (Hd : diffOf msec timeLocal = offset * time.Second).
  { unfold diffOf.
    destruct (time_facts.Sub_cases (time.Truncate msec time.Millisecond)
                                   (localOf timeLocal))
      as [[_ He] | [[Hlt _] | [Hgt _]]]; lia. }
  rewrite (parseTimes_unfold _ _ _ _ Hm). cbn zeta. rewrite Hd, Hw.
  rewrite Z.rem_mul by (unfold time.Second; lia).
  rewrite Z.quot_mul by (unfold time.Second; lia).
  cbn. rewrite Z.eqb_refl. reflexivity.
Qed.

Lemma Weekday_wallMilli (t : time.Time) :
  time.Weekday (time.wallMilli t) = time.Weekday t.
Proof.
  unfold time.Weekday, time.abs, time.wallMilli.
  rewrite time_facts.Truncate_Millisecond. cbn [time.nanos time.loc].
  unfold time.UTC at 1. cbn [time.lookup].
  rewrite Z.div_add by (unfold time.Second; lia).
  rewrite time_facts.div_Second_Truncate.
  rewrite Z.add_0_r. reflexivity.
Qed.

(** The URL, host and domain columns that [writeAnalysisVisit] derives
    from a URL pass [checkURL]. *)
Lemma checkURL_written (rawURL tld1 : string) (u : url.URL) :
  url_Parse rawURL = Some u ->
  tld1 = "" \/ EffectiveTLDPlusOne (url.Hostname u) = Some tld1 ->
  checkURL rawURL (url.Hostname u) tld1 = Ok tt.
Proof.
  intros Hparse Htld. unfold checkURL.
  rewrite Hparse. cbn. rewrite String.eqb_refl. cbn.
  replace (if negb (url.Hostname u =? "")%string then Ok tt else Ok tt)
    with (Ok tt) by (destruct (negb (url.Hostname u =? "")%string); reflexivity).
  cbn.
  destruct (String.eqb_spec tld1 "") as [-> | Hne]; cbn; [ reflexivity | ].
  destruct Htld as [ | Htld ]; [ contradiction | ].
  rewrite Htld. cbn. rewrite String.eqb_refl. reflexivity.
Qed.

(** What a successful [readAnalysisVisit] has gone through. *)
Lemma readAnalysisVisit_Ok_inv (r r' : Reader)
    (rawURL host domain timeMsec timeLocal weekday transition title : string)
    (v : Visit) :
  readAnalysisVisit r rawURL host domain timeMsec timeLocal weekday
                    transition title = (r', Ok v) ->
  checkURL rawURL host domain = Ok tt
  /\ (exists offset,
        parseTimes timeMsec timeLocal weekday = Ok (VisitTime v, offset)
        /\ learnOffset r offset = Ok r')
  /\ PageTransitionFromString transition = Some (Transition v)
  /\ URL v = rawURL
  /\ PageTitle v = normalizeTitle title.
Proof.
  unfold readAnalysisVisit. intros H.
  destruct (checkURL rawURL host domain) as [ [] | ]; [ | congruence ].
  destruct (parseTimes timeMsec timeLocal weekday) as [ [t offset] | ];
    [ | congruence ].
  destruct (learnOffset r offset) as [ r1 | ] eqn:Hl; [ | congruence ].
  destruct (PageTransitionFromString transition) as [ typ | ];
    [ | congruence ].
  injection H as <- <-. cbn.
  split; [ reflexivity | ]. split; [ | auto ].
  exists offset. auto.
Qed.

(** A local-time field that [time.Parse] does not read stands for the
    zero time, so that a record with it is accepted when its epoch field
    names a whole number of seconds from the zero time and its weekday
    field is the weekday of the zero time. *)
Lemma parseTimes_unparsed_local_accepted
      (timeMsec timeLocal weekday : string) (msec : time.Time) (offset : Z)
      (err : string) :
  time_Parse timeLocal = (time.zero, Some err) ->
  timefmt_Parse timeMsec = Some msec ->
  time.nanos (time.Truncate msec time.Millisecond) = offset * time.Second ->
  time.minDuration <= offset * time.Second <= time.maxDuration ->
  strconv.Atoi weekday = Some 1 ->
  parseTimes timeMsec timeLocal weekday = Ok (msec, offset).
Proof.
  intros Hl Hm Hn Hr Hw.
  apply parseTimes_true_offset; unfold localOf; rewrite ?Hl; cbn [fst];
    assumption.
Qed.

(** A visit later than the largest duration after the zero time is not
    read back when the local time written for it is not read by
    [time.Parse], whatever the other capabilities do. *)
Lemma roundTrips_needs_layout (w : Writer) (r : Reader) (v : Visit) :
  localOf (time_Format (time.In (VisitTime v) (loc w))) = time.zero ->
  time.maxDuration + time.Millisecond <= time.nanos (VisitTime v) ->
  ~ roundTrips w r v.
Proof.
  intros Hl Hlate (fields & r' & Hw & Hd).
  unfold writeAnalysisVisit in Hw.
  destruct (url_Parse (URL v)) as [u | ]; [ | discriminate ].
  cbn [bind orFail] in Hw.
  destruct (if negb (strings.IndexByte (url.Hostname u) "." =? -1)
            then orFail ErrPublicSuffix (EffectiveTLDPlusOne (url.Hostname u))
            else Ok "") as [tld1 | ]; [ | discriminate ].
  cbn [bind] in Hw. injection Hw as <-.
  apply readAnalysisVisit_Ok_inv in Hd as (_ & (offset & Ht & _) & _).
  destruct (parseTimes_Ok_offset _ _ _ _ _ Ht) as [Hn Hr].
  rewrite Hl in Hn. rewrite time_facts.Truncate_Millisecond in Hn.
  cbn in Hn.
  pose proof (Z.mod_pos_bound (time.nanos (VisitTime v)) time.Millisecond
                              ltac:(unfold time.Millisecond; lia)).
  unfold time.Millisecond in *. lia.
Qed.

(** C1, amended.  Let [writeAnalysisVisit] succeed on [v], and let the
    reader be at its first record, or at a later one with the offset of
    the writer's zone as its own.  If the visit time is read back by
    [timefmt.Parse] from what [timefmt.Format] prints, the local time
    printed in the layout is read back by [time.Parse] as the same wall
    clock to the millisecond, the zone of the writer is less than a day
    from UTC at the visit time, the transition is read back from its
    string, and the title is normalized, then decoding the columns gives
    [v] itself, with the full precision of its visit time; the URL may
    have an at sign in its path or not. *)
Theorem writeAnalysisVisit_readAnalysisVisit
    (w : Writer) (r : Reader) (v : Visit) :
  isOk (writeAnalysisVisit w v) = true ->
  record r = 1
  \/ tz r = - time.lookup (loc w) (time.Unix (VisitTime v)) ->
  timefmt_Parse (timefmt_Format (VisitTime v)) = Some (VisitTime v) ->
  localOf (time_Format (time.In (VisitTime v) (loc w)))
    = time.wallMilli (time.In (VisitTime v) (loc w)) ->
  - 86400 < time.lookup (loc w) (time.Unix (VisitTime v)) < 86400 ->
  PageTransitionFromString (PageTransition_String (Transition v))
    = Some (Transition v) ->
  normalizeTitle (PageTitle v) = PageTitle v ->
  roundTrips w r v.
Proof.
  intros Hw Hrec Hfmt Hlayout Hzone Htr Htitle.
  unfold roundTrips, writeAnalysisVisit in *.
  set (local := time.In (VisitTime v) (loc w)) in *.
  set (off := time.lookup (loc w) (time.Unix (VisitTime v))) in *.
  destruct (url_Parse (URL v)) as [u | ] eqn:Hparse; [ | discriminate ].
  cbn [bind orFail] in Hw |- *.
  assert (Htld : exists tld1,
    (if negb (strings.IndexByte (url.Hostname u) "." =? -1)
     then orFail ErrPublicSuffix (EffectiveTLDPlusOne (url.Hostname u))
     else Ok "") = Ok tld1
    /\ (tld1 = "" \/ EffectiveTLDPlusOne (url.Hostname u) = Some tld1)).
  { destruct (negb (strings.IndexByte (url.Hostname u) "." =? -1)).
    - destruct (EffectiveTLDPlusOne (url.Hostname u)) as [d | ];
        [ | discriminate ].
      exists d. cbn. auto.
    - exists "". auto. }
  destruct Htld as (tld1 & -> & Htld). cbn [bind].
  pose proof (checkURL_written _ _ _ Hparse Htld) as Hurl.
  assert (Htimes :
    parseTimes (timefmt_Format (VisitTime v)) (time_Format local)
               (strconv.Itoa (time.Weekday local))
    = Ok (VisitTime v, - off)).
  { apply parseTimes_true_offset.
    - exact Hfmt.
    - rewrite Hlayout. unfold time.wallMilli.
      rewrite !time_facts.Truncate_Millisecond. subst local off. cbn.
      unfold time.Unix. cbn. lia.
    - unfold time.minDuration, time.maxDuration, time.Second. lia.
    - rewrite Hlayout, Weekday_wallMilli.
      apply strconv_facts.Atoi_Itoa_weekday, time_facts.Weekday_range. }
  assert (Hlearn : exists r', learnOffset r (- off) = Ok r').
  { destruct (Z.eq_dec (record r) 1) as [H1 | H1].
    - exists (adopted r (- off)). apply (learnOffset_first _ _ H1).
      unfold time.minDuration, time.maxDuration, time.Second. lia.
    - destruct Hrec as [ | Htz ]; [ contradiction | ].
      exists r. rewrite (learnOffset_next _ _ H1), Htz, Z.eqb_refl.
      reflexivity. }
  destruct Hlearn as [r' Hlearn].
  eexists. exists r'.
  split; [ reflexivity | ].
  unfold decodeRecord, readAnalysisVisit.
  rewrite Hurl, Htimes, Hlearn, Htr, Htitle. destruct v; reflexivity.
Qed.

End RoundTrip.

(* ================================================================== *)
(** * The statements at the sample records *)

Section Runs.

Import Sample.

Local Existing Instance reference.

Ltac run := vm_compute; reflexivity.

(** The sample rows resolve to the sample visits, six, six and five
    hours from UTC. *)
Lemma resolve_rowA : resolve rowA = Ok (visitA, 21600).
Proof. run. Qed.

Lemma resolve_rowB : resolve rowB = Ok (visitB, 21600).
Proof. run. Qed.

Lemma resolve_rowC : resolve rowC = Ok (visitB, 18000).
Proof. run. Qed.

(** The visit of the format description goes through the writer and
    the reader unchanged. *)
Lemma writeAnalysisVisit_readAnalysisVisit_witness :
  writeAnalysisVisit writerCST visitA = Ok rowA
  /\ roundTrips writerCST readerFirst visitA.
Proof.
  split; [ run | ].
  apply (@writeAnalysisVisit_readAnalysisVisit _ reference writerCST readerFirst visitA).
  - run.
  - left. reflexivity.
  - run.
  - run.
  - vm_compute. split; reflexivity.
  - run.
  - run.
Defined.

(** C1 as stated fails: the URL of [visitY10K] parses and has no at
    sign in its path, the visit is written, and the columns written are
    not read back, because the year takes five digits and the local
    time is then not in the layout. *)
Lemma roundTrip_fails_year_10000 :
  (exists u, url_Parse (URL visitY10K) = Some u
             /\ strings.IndexByte (url.Path u) "@" = -1)
  /\ writeAnalysisVisit writerUTC visitY10K
     = Ok [ "https://example.com/"; "example.com"; "example.com";
            "253402300800000"; "10000-01-01 00:00:00.000"; "6"; "link";
            "Example Domain" ]
  /\ decodeRecord readerFirst
       [ "https://example.com/"; "example.com"; "example.com";
         "253402300800000"; "10000-01-01 00:00:00.000"; "6"; "link";
         "Example Domain" ]
     = (readerFirst, Err (ErrFractional time.maxDuration))
  /\ ~ roundTrips writerUTC readerFirst visitY10K.
Proof.
  split; [ | split; [ | split ] ].
  - exists (url.mkURL "https" "" "example.com" "/" "" ""). split; run.
  - run.
  - run.
  - apply roundTrips_needs_layout; [ run | ].
    vm_compute. discriminate.
Qed.

(** A host that ends in a period has no effective TLD+1: the visit is
    not written at all. *)
Lemma writeAnalysisVisit_trailing_period :
  (exists u, url_Parse (URL visitDot) = Some u
             /\ url.Hostname u = "example.com.")
  /\ writeAnalysisVisit writerCST visitDot = Err ErrPublicSuffix.
Proof.
  split; [ | run ].
  exists (url.mkURL "https" "" "example.com." "/" "" ""). split; run.
Qed.

(** Two records six hours from UTC are both decoded; a second record
    five hours from UTC stops the session at record 2. *)
Lemma readAll_offset_learned_once_witness :
  let s := readAll (NewReader exportTime) [rowA; rowB] in
  let s' := readAll (NewReader exportTime) [rowA; rowC] in
  (tz (reader s) = 21600 /\ failure s = None /\ length (visits s) = 2%nat)
  /\ (tz (reader s') = 21600
      /\ failure s' = Some (2, ErrTimezone 18000 21600)
      /\ visits s' = [visitA]).
Proof.
  pose proof (@readAll_offset_learned_once _ reference exportTime rowA visitA
                21600 [rowB] ltac:(vm_compute; reflexivity))
    as (Htz & Hsame & _).
  pose proof (@readAll_offset_learned_once _ reference exportTime rowA visitA
                21600 [rowC] ltac:(vm_compute; reflexivity))
    as (Htz' & _ & Hdrift).
  assert (Hall : Forall (resolvesWith 21600) [rowB]).
  { constructor; [ exists visitB; vm_compute; reflexivity | constructor ]. }
  destruct (Hsame Hall) as (Hnone & Hlen & _).
  destruct (Hdrift "http://localhost/" "localhost" "" "1384638558500"
              "2013-11-16 16:49:18.500" "6" "typed" "" (VisitTime visitB)
              18000 [] eq_refl
              ltac:(vm_compute; reflexivity) ltac:(vm_compute; reflexivity)
              ltac:(lia))
    as (Hfail & Hvis & _).
  cbv zeta. repeat split; assumption.
Defined.

(** C2 as stated fails: the two records share the offset of six hours
    and are decoded, and the instant of the first visit is not its
    local time plus six hours but 754 microseconds later. *)
Lemma instant_is_not_local_plus_offset :
  let s := readAll (NewReader exportTime) [rowA; rowB] in
  resolve rowA = Ok (visitA, 21600)
  /\ resolve rowB = Ok (visitB, 21600)
  /\ failure s = None
  /\ visits s = [visitA; visitB]
  /\ time.nanos (VisitTime visitA)
     = time.nanos (rowLocal rowA) + 21600 * time.Second + 754000
  /\ time.nanos (VisitTime visitA)
     <> time.nanos (rowLocal rowA) + 21600 * time.Second.
Proof.
  cbv zeta. repeat split; try run.
  vm_compute. discriminate.
Qed.

(** C3.  The error of [time.Parse] is dropped.  A local-time field that
    does not parse is taken for the zero time: next to an epoch field
    that names the zero time and the weekday of a Monday it is
    accepted, by [parseTimes] and by [readAnalysisVisit]; next to the
    epoch field of the format description it is refused, as a
    fractional time difference. *)
Theorem parseTimes_drops_time_Parse_error :
  snd (time_Parse "not a time") <> None
  /\ parseTimes "-62135596800000" "not a time" "1" = Ok (time.zero, 0)
  /\ isOk (snd (readAnalysisVisit readerFirst "https://example.com/" "example.com"
                  "example.com" "-62135596800000" "not a time" "1" "link"
                  "Example Domain")) = true
  /\ parseTimes "1384634958041.754" "not a time" "6"
     = Err (ErrFractional time.maxDuration)
  /\ kind (ErrFractional time.maxDuration) = InconsistentRedundancy.
Proof.
  repeat split; try run.
  vm_compute. discriminate.
Qed.

(** C4 as stated fails: ":" is not a URL, and with blank host and
    domain fields [checkURL] accepts it and [readAnalysisVisit] returns
    a visit with it. *)
Lemma checkURL_accepts_unparseable_url :
  url_Parse ":" = None
  /\ checkURL ":" "" "" = Ok tt
  /\ snd (readAnalysisVisit readerFirst ":" "" "" "1384634958041.754"
            "2013-11-16 14:49:18.041" "6" "link" "Example Domain")
     = Ok (@mkVisit Ref.PageTransition ":" instantA Ref.Link "Example Domain").
Proof. repeat split; run. Qed.

(** With a host field to compare, the same text is refused as a URL. *)
Lemma checkURL_unparseable_witness :
  checkURL ":" "example.com" "example.com" = Err ErrURL
  /\ snd (readAnalysisVisit readerFirst ":" "example.com" "" "1384634958041.754"
            "2013-11-16 14:49:18.041" "6" "link" "Example Domain")
     = Err ErrURL.
Proof.
  split.
  - apply (@checkURL_unparseable _ reference ":" "example.com" "example.com").
    + discriminate.
    + reflexivity.
  - destruct (@checkURL_unparseable _ reference ":" "example.com" ""
                ltac:(discriminate) eq_refl) as [_ H].
    rewrite H. reflexivity.
Defined.

(** The two readings of the host field "user": tolerated for the
    archived address with an at sign in its path, refused for an
    address without. *)
Lemma checkURL_host_comparison_witness :
  checkURL "https://web.archive.org/save/https://medium.com/@user/article"
           "user" "" = Ok tt
  /\ checkURL "https://web.archive.org/save/article" "user" ""
     = Err (ErrHost "user" "web.archive.org")
  /\ checkURL "https://web.archive.org/save/article" "web.archive.org" ""
     = Ok tt.
Proof.
  split; [ | split ].
  - apply (@checkURL_host_comparison _ reference
             "https://web.archive.org/save/https://medium.com/@user/article"
             "user"
             (url.mkURL "https" "" "web.archive.org"
                        "/save/https://medium.com/@user/article" "" "")).
    + discriminate.
    + vm_compute; reflexivity.
    + right. vm_compute. discriminate.
  - apply (@checkURL_host_comparison _ reference
             "https://web.archive.org/save/article" "user"
             (url.mkURL "https" "" "web.archive.org" "/save/article" "" "")
             ltac:(discriminate) ltac:(vm_compute; reflexivity)).
    intros [H | H]; [ vm_compute in H; discriminate | apply H; vm_compute; reflexivity ].
  - apply (@checkURL_host_comparison _ reference
             "https://web.archive.org/save/article" "web.archive.org"
             (url.mkURL "https" "" "web.archive.org" "/save/article" "" "")
             ltac:(discriminate) ltac:(vm_compute; reflexivity)).
    left. vm_compute; reflexivity.
Defined.

(** Half a second between the two time fields is refused; six hours
    are the offset; eight thousand years do not fit a duration and are
    refused. *)
Lemma parseTimes_fractional_difference_witness :
  parseTimes "1623060000500" "2021-06-07 10:00:00.000" "1"
  = Err (ErrFractional 500000000)
  /\ parseTimes "1384634958041.754" "2013-11-16 14:49:18.041" "6"
     = Ok (instantA, 21600)
  /\ parseTimes "0" "9999-01-01 00:00:00.000" "5"
     = Err (ErrFractional (diffOf (Ref.Date 1970 1 1 0 0 0 0)
                                  "9999-01-01 00:00:00.000")).
Proof.
  split; [ | split ].
  - destruct (@parseTimes_fractional_difference _ reference
                "1623060000500" "2021-06-07 10:00:00.000" "1"
                (time.mkTime ((1623060000 + time.unixToInternal) * time.Second
                              + 500000000) time.UTC)
                ltac:(vm_compute; reflexivity)) as (Hfrac & _).
    apply Hfrac. vm_compute. discriminate.
  - destruct (@parseTimes_fractional_difference _ reference
                "1384634958041.754" "2013-11-16 14:49:18.041" "6" instantA
                ltac:(vm_compute; reflexivity)) as (_ & _ & Hwhole).
    apply Hwhole.
    + vm_compute; reflexivity.
    + vm_compute. split; discriminate.
    + vm_compute; reflexivity.
  - destruct (@parseTimes_fractional_difference _ reference
                "0" "9999-01-01 00:00:00.000" "5" (Ref.Date 1970 1 1 0 0 0 0)
                ltac:(vm_compute; reflexivity)) as (_ & Hout & _).
    apply Hout. left. vm_compute. reflexivity.
Defined.

(** C6 as stated fails: the epoch field 0 and the local time of the
    first day of 9999, a Friday, are a whole number of seconds apart,
    the local-time field parses and the weekday field agrees, and
    [parseTimes] returns no offset: [time.Sub] has cut the difference
    to the smallest duration, which is not a whole number of seconds. *)
Lemma parseTimes_whole_seconds_refused :
  let msec := Ref.Date 1970 1 1 0 0 0 0 in
  let local := localOf "9999-01-01 00:00:00.000" in
  timefmt_Parse "0" = Some msec
  /\ snd (time_Parse "9999-01-01 00:00:00.000") = None
  /\ time.nanos (time.Truncate msec time.Millisecond) - time.nanos local
     = - 253370764800 * time.Second
  /\ strconv.Atoi "5" = Some (time.Weekday local)
  /\ parseTimes "0" "9999-01-01 00:00:00.000" "5"
     = Err (ErrFractional time.minDuration)
  /\ isOk (snd (readAnalysisVisit readerFirst "https://example.com/"
                  "example.com" "example.com" "0" "9999-01-01 00:00:00.000"
                  "5" "link" "Example Domain")) = false.
Proof. cbv zeta. repeat split; run. Qed.


(** The weekday example of the design document, with its error. *)
Lemma weekday_cross_check :
  parseTimes "1623060000000" "2021-06-07 10:00:00.000" "0"
  = Err (ErrWeekday 0 1)
  /\ kind (ErrWeekday 0 1) = InconsistentRedundancy.
Proof. split; run. Qed.

(** No domain for localhost, example.com for sub.example.com. *)
Lemma writeAnalysisVisit_domain_witness :
  (exists fields,
      writeAnalysisVisit writerCST visitB = Ok fields
      /\ nth_error fields 1 = Some "localhost"
      /\ nth_error fields 2 = Some "")
  /\ (exists fields,
         writeAnalysisVisit writerCST visitA = Ok fields
         /\ nth_error fields 1 = Some "sub.example.com"
         /\ nth_error fields 2 = Some "example.com").
Proof.
  split.
  - destruct (@writeAnalysisVisit_domain _ reference writerCST visitB
                (url.mkURL "http" "" "localhost" "/" "" "")
                ltac:(vm_compute; reflexivity)) as (Hnodot & _).
    apply Hnodot. vm_compute; reflexivity.
  - destruct (@writeAnalysisVisit_domain _ reference writerCST visitA
                (url.mkURL "https" "" "sub.example.com" "/a" "b" "c")
                ltac:(vm_compute; reflexivity)) as (_ & Hdot & _).
    apply Hdot; [ vm_compute; discriminate | vm_compute; reflexivity ].
Defined.

(** C8 as stated fails: the URL of [visitDot] parses, its hostname has
    periods and ends in one, the hostname has no effective TLD+1, and
    [writeAnalysisVisit] returns the error and no columns, so that no
    domain is written. *)
Lemma writeAnalysisVisit_writes_no_domain :
  (exists u, url_Parse (URL visitDot) = Some u
             /\ url.Hostname u = "example.com."
             /\ strings.IndexByte (url.Hostname u) "." <> -1
             /\ EffectiveTLDPlusOne (url.Hostname u) = None)
  /\ writeAnalysisVisit writerCST visitDot = Err ErrPublicSuffix
  /\ isOk (writeAnalysisVisit writerUTC visitDot) = false.
Proof.
  split; [ | split; run ].
  exists (url.mkURL "https" "" "example.com." "/" "" "").
  split; [ run | ]. split; [ run | ].
  split; [ vm_compute; discriminate | run ].
Qed.

(** A second record, accepted or refused, leaves the reader alone. *)
Lemma readAnalysisVisit_frame_witness :
  fst (readAnalysisVisit readerSecond "http://localhost/" "localhost" ""
         "1384638558500" "2013-11-16 15:49:18.500" "6" "typed" "") = readerSecond
  /\ fst (readAnalysisVisit readerSecond "http://localhost/" "localhost" ""
            "1384638558500" "2013-11-16 16:49:18.500" "6" "typed" "") = readerSecond.
Proof.
  split.
  - apply (@readAnalysisVisit_frame _ reference readerSecond "http://localhost/"
             "localhost" "" "1384638558500" "2013-11-16 15:49:18.500" "6"
             "typed" ""). cbn. lia.
  - apply (@readAnalysisVisit_frame _ reference readerSecond "http://localhost/"
             "localhost" "" "1384638558500" "2013-11-16 16:49:18.500" "6"
             "typed" ""). cbn. lia.
Defined.

(** A first record that is right in everything but its transition: the
    call fails and the reader has taken the offset of six hours. *)
Lemma readAnalysisVisit_first_not_atomic_witness :
  readAnalysisVisit readerFirst "https://sub.example.com/a?b#c" "sub.example.com"
    "example.com" "1384634958041.754" "2013-11-16 14:49:18.041" "6"
    "teleport" "Example Domain"
  = (adopted readerFirst 21600, Err ErrTransition)
  /\ tz (adopted readerFirst 21600) = 21600
  /\ tz readerFirst = 0
  /\ adopted readerFirst 21600 <> readerFirst.
Proof.
  destruct (@readAnalysisVisit_first_not_atomic _ reference readerFirst
              "https://sub.example.com/a?b#c" "sub.example.com" "example.com"
              "1384634958041.754" "2013-11-16 14:49:18.041" "6" "teleport"
              "Example Domain" instantA 21600
              eq_refl
              ltac:(vm_compute; reflexivity)
              ltac:(vm_compute; reflexivity)
              ltac:(vm_compute; reflexivity))
    as (Hcall & Htz & _ & Hne).
  split; [ exact Hcall | ]. split; [ exact Htz | ].
  split; [ reflexivity | ].
  apply Hne. cbn. lia.
Defined.

End Runs.

(* ================================================================== *)
(** * More about the codec *)

Section CodecMore.

Context {PageTransition : Type} {C : Capabilities PageTransition}.

(** X1.  [checkURL] accepts a record exactly when the host field is
    blank or the URL parses with that hostname or with an at sign in its
    path, and the domain field is blank or is the effective TLD+1 of the
    host field (of the field, not of the hostname of the URL). *)
Theorem checkURL_Ok_iff (rawURL host domain : string) :
  checkURL rawURL host domain = Ok tt
  <-> (host = ""
       \/ exists u, url_Parse rawURL = Some u
                    /\ (url.Hostname u = host
                        \/ strings.IndexByte (url.Path u) "@" <> -1))
      /\ (domain = "" \/ EffectiveTLDPlusOne host = Some domain).
Proof.
  unfold checkURL.
  destruct (String.eqb_spec host "") as [Hh | Hh]; cbn [negb].
  - cbn [bind]. split.
    + intros H. split; [ auto | ].
      destruct (String.eqb_spec domain "") as [ | Hd ]; [ auto | ].
      cbn [negb] in H. right.
      destruct (EffectiveTLDPlusOne host) as [tld1 | ]; [ | discriminate ].
      cbn in H.
      destruct (String.eqb_spec tld1 domain); [ congruence | discriminate ].
    + intros [_ [-> | Hd]]; [ reflexivity | ].
      rewrite Hd. cbn. rewrite String.eqb_refl. cbn.
      destruct (negb (domain =? "")%string); reflexivity.
  - destruct (url_Parse rawURL) as [u | ]; cbn [orFail bind].
    + destruct (String.eqb_spec (url.Hostname u) host) as [He | He];
        cbn [negb].
      * cbn [bind]. split.
        -- intros H. split; [ right; exists u; auto | ].
           destruct (String.eqb_spec domain "") as [ | Hd ]; [ auto | ].
           cbn [negb] in H. right.
           destruct (EffectiveTLDPlusOne host) as [tld1 | ];
             [ | discriminate ].
           cbn in H.
           destruct (String.eqb_spec tld1 domain);
             [ congruence | discriminate ].
        -- intros [_ [-> | Hd]]; [ reflexivity | ].
           rewrite Hd. cbn. rewrite String.eqb_refl. cbn.
           destruct (negb (domain =? "")%string); reflexivity.
      * destruct (Z.eqb_spec (strings.IndexByte (url.Path u) "@") (-1))
          as [Hat | Hat]; cbn [bind].
        -- split; [ discriminate | ].
           intros [[ | (u' & Hu & [ | ])] _]; try contradiction;
             inversion Hu; subst; contradiction.
        -- split.
           ++ intros H. split; [ right; exists u; auto | ].
              destruct (String.eqb_spec domain "") as [ | Hd ]; [ auto | ].
              cbn [negb] in H. right.
              destruct (EffectiveTLDPlusOne host) as [tld1 | ];
                [ | discriminate ].
              cbn in H.
              destruct (String.eqb_spec tld1 domain);
                [ congruence | discriminate ].
           ++ intros [_ [-> | Hd]]; [ reflexivity | ].
              rewrite Hd. cbn. rewrite String.eqb_refl. cbn.
              destruct (negb (domain =? "")%string); reflexivity.
    + split; [ discriminate | ].
      intros [[ | (u' & Hu & _)] _]; [ contradiction | discriminate ].
Qed.

(** The reader that [learnOffset] returns holds the offset it was given,
    whichever branch was taken. *)
Lemma learnOffset_Ok_tz (r r' : Reader) (offset : Z) :
  learnOffset r offset = Ok r' -> tz r' = offset /\ record r' = record r.
Proof.
  unfold learnOffset.
  destruct (record r =? 1).
  - intros H. injection H as <-. auto.
  - destruct (Z.eqb_spec offset (tz r)); cbn; [ | discriminate ].
    intros H. injection H as <-. auto.
Qed.

(** X2.  An offset that [parseTimes] returns is at most 9223372036
    seconds either way, and turning it back into a duration, as
    [readAnalysisVisit] does for the first record, or negating that
    duration, never leaves the 64-bit range. *)
Theorem parseTimes_offset_fits
    (timeMsec timeLocal weekday : string) (t : time.Time) (offset : Z) :
  parseTimes timeMsec timeLocal weekday = Ok (t, offset) ->
  - 9223372036 <= offset <= 9223372036
  /\ time.wrap64 (offset * time.Second) = offset * time.Second
  /\ time.wrap64 (- time.wrap64 (offset * time.Second))
     = - (offset * time.Second).
Proof.
  intros H. destruct (parseTimes_Ok_offset _ _ _ _ _ H) as [_ Hr].
  unfold time.minDuration, time.maxDuration, time.Second in *.
  rewrite (time_facts.wrap64_id (offset * 1000000000))
    by (unfold time.minDuration, time.maxDuration; lia).
  rewrite (time_facts.wrap64_id (- (offset * 1000000000)))
    by (unfold time.minDuration, time.maxDuration; lia).
  repeat split; lia.
Qed.

(** X3.  The visit that [readAnalysisVisit] returns is made of the URL
    column as it is, the instant of the epoch column, the transition of
    the transition column and the normalized title column.  The host,
    domain, local time and weekday columns, and the reader, decide
    whether a visit is returned and not which: two calls that agree on
    the four columns and both succeed return the same visit. *)
Theorem readAnalysisVisit_visit_columns
    (r1 r1' r2 r2' : Reader) (rawURL timeMsec transition title : string)
    (host1 domain1 timeLocal1 weekday1 host2 domain2 timeLocal2 weekday2 : string)
    (v1 v2 : Visit) :
  readAnalysisVisit r1 rawURL host1 domain1 timeMsec timeLocal1 weekday1
                    transition title = (r1', Ok v1) ->
  readAnalysisVisit r2 rawURL host2 domain2 timeMsec timeLocal2 weekday2
                    transition title = (r2', Ok v2) ->
  v1 = v2
  /\ URL v1 = rawURL
  /\ timefmt_Parse timeMsec = Some (VisitTime v1)
  /\ PageTransitionFromString transition = Some (Transition v1)
  /\ PageTitle v1 = normalizeTitle title.
Proof.
  intros H1 H2.
  apply readAnalysisVisit_Ok_inv in H1
    as (_ & (o1 & Ht1 & _) & Hp1 & Hu1 & Hn1).
  apply readAnalysisVisit_Ok_inv in H2
    as (_ & (o2 & Ht2 & _) & Hp2 & Hu2 & Hn2).
  apply parseTimes_Ok_inv in Ht1 as (Hm1 & _).
  apply parseTimes_Ok_inv in Ht2 as (Hm2 & _).
  repeat split; try assumption.
  destruct v1 as [u1 t1 p1 n1], v2 as [u2 t2 p2 n2]. cbn in *.
  congruence.
Qed.

(** X4.  [readAnalysisVisit] never changes the record counter, and it
    changes the rest of the reader only for a record numbered 1 that has
    passed the URL and time checks.  Whenever it returns an error other
    than that of the transition, the reader comes back as it was. *)
Theorem readAnalysisVisit_reader_effect (r : Reader)
    (rawURL host domain timeMsec timeLocal weekday transition title : string) :
  let out := readAnalysisVisit r rawURL host domain timeMsec timeLocal
                               weekday transition title in
  record (fst out) = record r
  /\ (fst out = r
      \/ (record r = 1
          /\ checkURL rawURL host domain = Ok tt
          /\ exists t offset,
               parseTimes timeMsec timeLocal weekday = Ok (t, offset)
               /\ fst out = adopted r offset))
  /\ (forall e, snd out = Err e -> e <> ErrTransition -> fst out = r).
Proof.
  cbv zeta. unfold readAnalysisVisit.
  destruct (checkURL rawURL host domain) as [ [] | e1 ]; [ | cbn; auto ].
  destruct (parseTimes timeMsec timeLocal weekday) as [ [t offset] | e2 ] eqn:Ht;
    [ | cbn; auto ].
  destruct (Z.eq_dec (record r) 1) as [H1 | H1].
  - destruct (parseTimes_Ok_offset _ _ _ _ _ Ht) as [_ Hr].
    rewrite (learnOffset_first _ _ H1 Hr).
    destruct (PageTransitionFromString transition); cbn.
    + split; [ reflexivity | ]. split; [ | discriminate ].
      right. repeat split; auto. exists t, offset. auto.
    + split; [ reflexivity | ]. split.
      * right. repeat split; auto. exists t, offset. auto.
      * intros e He Hne. congruence.
  - rewrite (learnOffset_next _ _ H1).
    destruct (offset =? tz r); [ | cbn; auto ].
    destruct (PageTransitionFromString transition); cbn; auto.
Qed.

(** The reader that a first record leaves behind once it has passed the
    URL and time checks, whether its transition is known or not. *)
Lemma readAnalysisVisit_first_reader (r : Reader)
    (rawURL host domain timeMsec timeLocal weekday transition title : string)
    (t : time.Time) (offset : Z) :
  record r = 1 ->
  checkURL rawURL host domain = Ok tt ->
  parseTimes timeMsec timeLocal weekday = Ok (t, offset) ->
  fst (readAnalysisVisit r rawURL host domain timeMsec timeLocal weekday
                         transition title) = adopted r offset.
Proof.
  intros H1 Hu Ht.
  destruct (parseTimes_Ok_offset _ _ _ _ _ Ht) as [_ Hr].
  unfold readAnalysisVisit.
  rewrite Hu, Ht, (learnOffset_first _ _ H1 Hr).
  destruct (PageTransitionFromString transition); reflexivity.
Qed.

(** X5.  What the first record does to the export time.  With an offset
    of [offset] seconds, which is the epoch field cut to the millisecond
    minus the local-time field, the export time is moved [offset]
    seconds back and put in a zone [offset] seconds east of UTC, so that
    its clock reads in that zone what it read in UTC before. *)
Theorem readAnalysisVisit_export_time (r : Reader)
    (rawURL host domain timeMsec timeLocal weekday transition title : string)
    (t : time.Time) (offset : Z) :
  record r = 1 ->
  checkURL rawURL host domain = Ok tt ->
  parseTimes timeMsec timeLocal weekday = Ok (t, offset) ->
  let r' := fst (readAnalysisVisit r rawURL host domain timeMsec timeLocal
                                   weekday transition title) in
  offset * time.Second
  = time.nanos (time.Truncate t time.Millisecond)
    - time.nanos (localOf timeLocal)
  /\ time.nanos (time r') = time.nanos (time r) - offset * time.Second
  /\ (forall sec, time.lookup (time.loc (time r')) sec = offset)
  /\ time.abs (time r') = time.nanos (time r) / time.Second
  /\ tz r' = offset.
Proof.
  intros H1 Hu Ht r'.
  destruct (parseTimes_Ok_offset _ _ _ _ _ Ht) as [Hn Hr].
  subst r'.
  rewrite (readAnalysisVisit_first_reader _ _ _ _ _ _ _ transition title
             _ _ H1 Hu Ht).
  unfold adopted, time.abs, time.In, time.Add, time.FixedZone.
  cbn [time tz time.nanos time.loc time.lookup].
  split; [ lia | ]. split; [ lia | ]. split; [ reflexivity | ].
  split; [ | reflexivity ].
  replace (time.nanos (time r) + - (offset * time.Second))
    with (time.nanos (time r) + (- offset) * time.Second) by lia.
  rewrite Z.div_add by (unfold time.Second; lia). lia.
Qed.

(** X6.  A record accepted as the first of a session is accepted again,
    with the same visit, by the reader it left behind at any later
    record number, and that call leaves the reader as it is. *)
Theorem readAnalysisVisit_again (r r' : Reader)
    (rawURL host domain timeMsec timeLocal weekday transition title : string)
    (v : Visit) (n : Z) :
  record r = 1 ->
  readAnalysisVisit r rawURL host domain timeMsec timeLocal weekday
                    transition title = (r', Ok v) ->
  n <> 1 ->
  readAnalysisVisit (mkReader n (time r') (tz r')) rawURL host domain
                    timeMsec timeLocal weekday transition title
  = (mkReader n (time r') (tz r'), Ok v).
Proof.
  intros H1 H Hn.
  apply readAnalysisVisit_Ok_inv in H
    as (Hu & (offset & Ht & Hl) & Hp & Hurl & Htitle).
  apply learnOffset_Ok_tz in Hl as [Htz _].
  unfold readAnalysisVisit. rewrite Hu, Ht.
  rewrite learnOffset_next by (cbn; exact Hn). cbn [tz].
  rewrite Htz, Z.eqb_refl, Hp, <- Hurl, <- Htitle.
  destruct v; reflexivity.
Qed.

(** What [writeAnalysisVisit] has computed when it returns columns. *)
Lemma writeAnalysisVisit_Ok_inv (w : Writer) (v : Visit) (fields : list string) :
  writeAnalysisVisit w v = Ok fields ->
  exists u tld1,
    url_Parse (URL v) = Some u
    /\ ((strings.IndexByte (url.Hostname u) "." = -1 /\ tld1 = "")
        \/ (strings.IndexByte (url.Hostname u) "." <> -1
            /\ EffectiveTLDPlusOne (url.Hostname u) = Some tld1))
    /\ fields
       = [ URL v; url.Hostname u; tld1; timefmt_Format (VisitTime v);
           time_Format (time.In (VisitTime v) (loc w));
           strconv.Itoa (time.Weekday (time.In (VisitTime v) (loc w)));
           PageTransition_String (Transition v); PageTitle v ].
Proof.
  unfold writeAnalysisVisit. intros H.
  destruct (url_Parse (URL v)) as [u | ]; [ | discriminate ].
  cbn [orFail bind] in H. exists u.
  destruct (Z.eqb_spec (strings.IndexByte (url.Hostname u) ".") (-1))
    as [Hdot | Hdot]; cbn [negb] in H.
  - cbn [bind] in H. injection H as <-. exists "". auto.
  - destruct (EffectiveTLDPlusOne (url.Hostname u)) as [d | ];
      [ | discriminate ].
    cbn [orFail bind] in H. injection H as <-. exists d. auto.
Qed.

(** X7.  [writeAnalysisVisit] succeeds exactly when the URL of the visit
    parses and its hostname has no period or has an effective TLD+1,
    whatever the zone of the writer.  It then returns eight columns, of
    which the URL, the epoch time, the transition and the title do not
    depend on the writer; the URL and the title are written as they are
    in the visit. *)
Theorem writeAnalysisVisit_shape (w : Writer) (v : Visit) :
  (isOk (writeAnalysisVisit w v) = true
   <-> exists u, url_Parse (URL v) = Some u
                 /\ (strings.IndexByte (url.Hostname u) "." = -1
                     \/ exists d, EffectiveTLDPlusOne (url.Hostname u) = Some d))
  /\ (forall w', isOk (writeAnalysisVisit w' v) = isOk (writeAnalysisVisit w v))
  /\ (forall fields,
        writeAnalysisVisit w v = Ok fields ->
        length fields = 8%nat
        /\ nth_error fields 0 = Some (URL v)
        /\ nth_error fields 3 = Some (timefmt_Format (VisitTime v))
        /\ nth_error fields 6 = Some (PageTransition_String (Transition v))
        /\ nth_error fields 7 = Some (PageTitle v)).
Proof.
  split; [ | split ].
  - split.
    + intros H.
      destruct (writeAnalysisVisit w v) as [fields | ] eqn:Hw;
        [ | discriminate ].
      destruct (writeAnalysisVisit_Ok_inv _ _ _ Hw)
        as (u & tld1 & Hu & [[Hdot _] | [_ Ht]] & _); eauto.
    + intros (u & Hu & Hd). unfold writeAnalysisVisit. rewrite Hu.
      cbn [orFail bind].
      destruct (Z.eqb_spec (strings.IndexByte (url.Hostname u) ".") (-1))
        as [Hdot | Hdot]; cbn [negb]; [ reflexivity | ].
      destruct Hd as [ | [d Hd]]; [ contradiction | ].
      rewrite Hd. reflexivity.
  - intros w'. unfold writeAnalysisVisit.
    destruct (url_Parse (URL v)) as [u | ]; [ | reflexivity ].
    cbn [orFail bind].
    destruct (negb (strings.IndexByte (url.Hostname u) "." =? -1));
      [ | reflexivity ].
    destruct (EffectiveTLDPlusOne (url.Hostname u)); reflexivity.
  - intros fields Hw.
    destruct (writeAnalysisVisit_Ok_inv _ _ _ Hw) as (u & tld1 & _ & _ & ->).
    repeat split.
Qed.

(** X8.  The redundant columns that [writeAnalysisVisit] derives are
    accepted by the checks of the reader that concern them alone,
    whatever the libraries compute: the URL, host and domain columns
    pass [checkURL], and the weekday column is read by [strconv.Atoi]
    as the weekday of the visit in the zone of the writer, a number
    from 0 to 6. *)
Theorem writeAnalysisVisit_redundant_columns
    (w : Writer) (v : Visit) (fields : list string) :
  writeAnalysisVisit w v = Ok fields ->
  checkURL (nth 0 fields "") (nth 1 fields "") (nth 2 fields "") = Ok tt
  /\ strconv.Atoi (nth 5 fields "")
     = Some (time.Weekday (time.In (VisitTime v) (loc w)))
  /\ 0 <= time.Weekday (time.In (VisitTime v) (loc w)) <= 6.
Proof.
  intros Hw.
  destruct (writeAnalysisVisit_Ok_inv _ _ _ Hw) as (u & tld1 & Hu & Ht & ->).
  cbn [nth].
  pose proof (time_facts.Weekday_range (time.In (VisitTime v) (loc w))) as Hr.
  split; [ | split ].
  - apply (checkURL_written _ _ _ Hu). tauto.
  - apply strconv_facts.Atoi_Itoa_weekday. exact Hr.
  - lia.
Qed.

(** X9.  The offset that the reader resolves for a written record is
    the opposite of the offset east of UTC of the writer's zone, when
    the libraries read back what they print.  A reader at its first
    record therefore keeps that opposite as its timezone offset and
    puts the export time in the zone that many seconds east of UTC: for
    a writer west of UTC, a zone as far east. *)
Theorem writeAnalysisVisit_offset_sign
    (w : Writer) (v : Visit) (fields : list string) :
  writeAnalysisVisit w v = Ok fields ->
  timefmt_Parse (timefmt_Format (VisitTime v)) = Some (VisitTime v) ->
  localOf (time_Format (time.In (VisitTime v) (loc w)))
    = time.wallMilli (time.In (VisitTime v) (loc w)) ->
  - 86400 < time.lookup (loc w) (time.Unix (VisitTime v)) < 86400 ->
  let east := time.lookup (loc w) (time.Unix (VisitTime v)) in
  parseTimes (nth 3 fields "") (nth 4 fields "") (nth 5 fields "")
  = Ok (VisitTime v, - east)
  /\ forall r, record r = 1 ->
       let r' := fst (readAnalysisVisit r (nth 0 fields "") (nth 1 fields "")
                        (nth 2 fields "") (nth 3 fields "") (nth 4 fields "")
                        (nth 5 fields "") (nth 6 fields "") (nth 7 fields "")) in
       tz r' = - east
       /\ forall sec, time.lookup (time.loc (time r')) sec = - east.
Proof.
  intros Hw Hfmt Hlayout Hzone east.
  destruct (writeAnalysisVisit_Ok_inv _ _ _ Hw) as (u & tld1 & Hu & Ht & ->).
  cbn [nth].
  set (local := time.In (VisitTime v) (loc w)) in *.
  assert (Htimes :
    parseTimes (timefmt_Format (VisitTime v)) (time_Format local)
               (strconv.Itoa (time.Weekday local))
    = Ok (VisitTime v, - east)).
  { apply parseTimes_true_offset.
    - exact Hfmt.
    - rewrite Hlayout. unfold time.wallMilli.
      rewrite !time_facts.Truncate_Millisecond. subst local east. cbn.
      unfold time.Unix. cbn. lia.
    - subst east. unfold time.minDuration, time.maxDuration, time.Second. lia.
    - rewrite Hlayout, Weekday_wallMilli.
      apply strconv_facts.Atoi_Itoa_weekday, time_facts.Weekday_range. }
  split; [ exact Htimes | ].
  intros r Hrec.
  assert (Hurl : checkURL (URL v) (url.Hostname u) tld1 = Ok tt)
    by (apply (checkURL_written _ _ _ Hu); tauto).
  cbv zeta.
  rewrite (readAnalysisVisit_first_reader r _ _ _ _ _ _
             (PageTransition_String (Transition v)) (PageTitle v)
             _ _ Hrec Hurl Htimes).
  split; [ reflexivity | intros sec; reflexivity ].
Qed.

End CodecMore.

(* ================================================================== *)
(** * [ExportType] *)

Lemma uint8s_complete (t : Z) : 0 <= t < 256 -> In t uint8s.
Proof.
  intros H. unfold uint8s.
  replace t with (Z.of_nat (Z.to_nat t)) by lia.
  apply in_map, in_seq. lia.
Qed.

(** X10.  [String] gives different texts for different export types:
    the text tells the type, also for the types that have no name. *)
Theorem ExportType_String_injective (a b : Z) :
  0 <= a < 256 -> 0 <= b < 256 ->
  a <> b -> ExportType_String a <> ExportType_String b.
Proof.
  intros Ha Hb Hne Heq. apply Hne.
  assert (Hall :
    forallb (fun x =>
      forallb (fun y =>
        implb (ExportType_String x =? ExportType_String y)%string (x =? y))
        uint8s) uint8s = true) by (vm_compute; reflexivity).
  rewrite forallb_forall in Hall.
  specialize (Hall a (uint8s_complete a Ha)).
  rewrite forallb_forall in Hall.
  specialize (Hall b (uint8s_complete b Hb)).
  rewrite Heq, String.eqb_refl in Hall. cbn in Hall.
  apply Z.eqb_eq. exact Hall.
Qed.

(* ================================================================== *)
(** * The trailing bytes of [decode] *)

Module jsonutil_facts.
Import jsonutil.

(** The white space of JSON and nothing else. *)
Lemma isSpace_iff (c : ascii) :
  isSpace c = true
  <-> c = " "%char \/ c = "009"%char \/ c = "013"%char \/ c = "010"%char.
Proof.
  unfold isSpace. split.
  - intros H. apply andb_true_iff in H as [_ H].
    repeat (apply orb_true_iff in H as [H | H]);
      apply Ascii.eqb_eq in H; auto.
  - intros [-> | [-> | [-> | ->]]]; reflexivity.
Qed.

Lemma firstNonSpace_None (bs : list ascii) :
  firstNonSpace bs = None <-> spaces bs.
Proof.
  unfold spaces. induction bs as [ | b bs IH ]; cbn.
  - split; [ constructor | reflexivity ].
  - destruct (isSpace b) eqn:Hb; cbn.
    + rewrite IH. split; [ constructor; assumption | ].
      intros H. inversion H; assumption.
    + split; [ discriminate | ].
      intros H. inversion H; congruence.
Qed.

Lemma firstNonSpace_Some (bs : list ascii) (b : ascii) :
  firstNonSpace bs = Some b
  <-> exists pre post,
        bs = (pre ++ b :: post)%list /\ spaces pre /\ isSpace b = false.
Proof.
  unfold spaces. induction bs as [ | c bs IH ]; cbn.
  - split; [ discriminate | ].
    intros (pre & post & H & _). destruct pre; discriminate.
  - destruct (isSpace c) eqn:Hc; cbn.
    + rewrite IH. split.
      * intros (pre & post & -> & Hp & Hb).
        exists (c :: pre), post. repeat split; auto.
      * intros (pre & post & H & Hp & Hb).
        destruct pre as [ | c' pre ]; cbn in H.
        -- injection H as -> _. congruence.
        -- injection H as -> ->. inversion Hp; subst.
           exists pre, post. auto.
    + split.
      * intros H. injection H as <-.
        exists [], bs. repeat split; auto.
      * intros (pre & post & H & Hp & Hb).
        destruct pre as [ | c' pre ]; cbn in H.
        -- injection H as -> _. reflexivity.
        -- injection H as -> _. inversion Hp; congruence.
Qed.

(** The loop from call [j] on, in terms of the calls it makes. *)
Lemma trailing_accepts_from (br : Reader) (fuel j : nat) :
  trailing br j fuel = Some None
  <-> exists k, (j <= k < j + fuel)%nat
                /\ err (br k) = EOF
                /\ forall i, (j <= i < k)%nat ->
                     err (br i) <> EOF /\ spaces (data (br i)).
Proof.
  revert j. induction fuel as [ | fuel IH ]; intros j; cbn.
  - split; [ discriminate | ]. intros (k & Hk & _). lia.
  - destruct (err (br j)) eqn:He.
    + destruct (firstNonSpace (data (br j))) as [b | ] eqn:Hf.
      * split; [ discriminate | ].
        intros (k & Hk & Hk' & Hall).
        destruct (Nat.eq_dec k j) as [-> | Hne]; [ congruence | ].
        destruct (Hall j ltac:(lia)) as [_ Hs].
        apply firstNonSpace_None in Hs. congruence.
      * rewrite IH. apply firstNonSpace_None in Hf. split.
        -- intros (k & Hk & Hk' & Hall). exists k.
           split; [ lia | ]. split; [ assumption | ].
           intros i Hi. destruct (Nat.eq_dec i j) as [-> | Hne].
           ++ split; [ congruence | assumption ].
           ++ apply Hall. lia.
        -- intros (k & Hk & Hk' & Hall).
           destruct (Nat.eq_dec k j) as [-> | Hne]; [ congruence | ].
           exists k. split; [ lia | ]. split; [ assumption | ].
           intros i Hi. apply Hall. lia.
    + split; [ | reflexivity ]. intros _. exists j.
      split; [ lia | ]. split; [ assumption | ]. intros i Hi. lia.
    + destruct (firstNonSpace (data (br j))) as [b | ] eqn:Hf.
      * split; [ discriminate | ].
        intros (k & Hk & Hk' & Hall).
        destruct (Nat.eq_dec k j) as [-> | Hne]; [ congruence | ].
        destruct (Hall j ltac:(lia)) as [_ Hs].
        apply firstNonSpace_None in Hs. congruence.
      * rewrite IH. apply firstNonSpace_None in Hf. split.
        -- intros (k & Hk & Hk' & Hall). exists k.
           split; [ lia | ]. split; [ assumption | ].
           intros i Hi. destruct (Nat.eq_dec i j) as [-> | Hne].
           ++ split; [ congruence | assumption ].
           ++ apply Hall. lia.
        -- intros (k & Hk & Hk' & Hall).
           destruct (Nat.eq_dec k j) as [-> | Hne]; [ congruence | ].
           exists k. split; [ lia | ]. split; [ assumption | ].
           intros i Hi. apply Hall. lia.
Qed.

Lemma trailing_rejects_from (br : Reader) (fuel j : nat) (e : decodeError) :
  trailing br j fuel = Some (Some e)
  <-> exists k b, (j <= k < j + fuel)%nat
                  /\ e = ErrTrailing b
                  /\ err (br k) <> EOF
                  /\ firstNonSpace (data (br k)) = Some b
                  /\ forall i, (j <= i < k)%nat ->
                       err (br i) <> EOF /\ spaces (data (br i)).
Proof.
  revert j. induction fuel as [ | fuel IH ]; intros j; cbn.
  - split; [ discriminate | ]. intros (k & b & Hk & _). lia.
  - assert (Hstep :
      err (br j) <> EOF ->
      (match firstNonSpace (data (br j)) with
       | Some b => Some (Some (ErrTrailing b))
       | None => trailing br (S j) fuel
       end = Some (Some e)
       <-> exists k b, (j <= k < j + S fuel)%nat
                       /\ e = ErrTrailing b
                       /\ err (br k) <> EOF
                       /\ firstNonSpace (data (br k)) = Some b
                       /\ forall i, (j <= i < k)%nat ->
                            err (br i) <> EOF /\ spaces (data (br i)))).
    { intros He.
      destruct (firstNonSpace (data (br j))) as [b | ] eqn:Hf.
      - split.
        + intros H. injection H as <-. exists j, b.
          repeat split; auto; lia.
        + intros (k & b' & Hk & -> & Hk' & Hfk & Hall).
          destruct (Nat.eq_dec k j) as [-> | Hne]; [ congruence | ].
          destruct (Hall j ltac:(lia)) as [_ Hs].
          apply firstNonSpace_None in Hs. congruence.
      - rewrite IH. apply firstNonSpace_None in Hf. split.
        + intros (k & b & Hk & -> & Hk' & Hfk & Hall). exists k, b.
          split; [ lia | ]. repeat split; auto;
            destruct (Nat.eq_dec i j) as [-> | Hne];
            try congruence; try assumption; apply Hall; lia.
        + intros (k & b & Hk & -> & Hk' & Hfk & Hall).
          destruct (Nat.eq_dec k j) as [-> | Hne].
          * apply firstNonSpace_None in Hf. congruence.
          * exists k, b. split; [ lia | ]. repeat split; auto;
              apply Hall; lia. }
    destruct (err (br j)) eqn:He.
    + apply Hstep. discriminate.
    + split; [ discriminate | ].
      intros (k & b & Hk & _ & Hk' & _ & Hall).
      destruct (Nat.eq_dec k j) as [-> | Hne]; [ congruence | ].
      destruct (Hall j ltac:(lia)) as [Hj _]. congruence.
    + apply Hstep. discriminate.
Qed.

Lemma spaces_before (br : Reader) (k : nat) :
  spaces (before br k) <-> forall i, (i < k)%nat -> spaces (data (br i)).
Proof.
  unfold spaces. induction k as [ | k IH ]; cbn.
  - split; [ intros _ i Hi; lia | constructor ].
  - rewrite Forall_app, IH. split.
    + intros [Hb Hk] i Hi.
      destruct (Nat.eq_dec i k) as [-> | Hne]; [ assumption | ].
      apply Hb. lia.
    + intros H. split; [ intros i Hi; apply H; lia | apply H; lia ].
Qed.

End jsonutil_facts.

Section TrailingBytes.

Import jsonutil jsonutil_facts.

Lemma trailing_pending_from (br : Reader) (fuel j : nat) :
  trailing br j fuel = None
  <-> forall i, (j <= i < j + fuel)%nat ->
        err (br i) <> EOF /\ spaces (data (br i)).
Proof.
  revert j. induction fuel as [ | fuel IH ]; intros j; cbn.
  - split; [ intros _ i Hi; lia | reflexivity ].
  - assert (Hstep :
      err (br j) <> EOF ->
      (match firstNonSpace (data (br j)) with
       | Some b => Some (Some (ErrTrailing b))
       | None => trailing br (S j) fuel
       end = None
       <-> forall i, (j <= i < j + S fuel)%nat ->
             err (br i) <> EOF /\ spaces (data (br i)))).
    { intros He.
      destruct (firstNonSpace (data (br j))) as [b | ] eqn:Hf.
      - split; [ discriminate | ]. intros H.
        destruct (H j ltac:(lia)) as [_ Hs].
        apply firstNonSpace_None in Hs. congruence.
      - rewrite IH. apply firstNonSpace_None in Hf. split.
        + intros H i Hi. destruct (Nat.eq_dec i j) as [-> | Hne];
            [ auto | apply H; lia ].
        + intros H i Hi. apply H. lia. }
    destruct (err (br j)) eqn:He.
    + apply Hstep. discriminate.
    + split; [ discriminate | ]. intros H.
      destruct (H j ltac:(lia)) as [Hj _]. congruence.
    + apply Hstep. discriminate.
Qed.

(** The loop looks at a result of [Read] only to see whether its error
    is [io.EOF] and, when it is not, which bytes came with it. *)
Lemma trailing_ext (br br' : Reader) :
  (forall k, (err (br k) = EOF <-> err (br' k) = EOF)
             /\ (err (br k) <> EOF -> data (br k) = data (br' k))) ->
  forall fuel j, trailing br j fuel = trailing br' j fuel.
Proof.
  intros H fuel. induction fuel as [ | fuel IH ]; intros j; cbn;
    [ reflexivity | ].
  destruct (H j) as [He Hd].
  destruct (err (br j)) eqn:E, (err (br' j)) eqn:E';
    try reflexivity;
    try (rewrite <- Hd by discriminate; rewrite IH; reflexivity);
    exfalso; destruct He as [He1 He2];
    first [ specialize (He1 eq_refl) | specialize (He2 eq_refl) ];
    discriminate.
Qed.

(** X11.  After a value has been decoded, [decode] returns no error
    exactly when some call of [Read] reports [io.EOF] and every byte
    read before the first such call is white space of JSON; nothing is
    then read and discarded. *)
Theorem decode_accepts_iff (br : Reader) (readAll : bool) (fuel : nat) :
  decode None br readAll fuel = Some (None, false)
  <-> exists k, (k < fuel)%nat /\ firstEOF br k /\ spaces (before br k).
Proof.
  unfold decode, firstEOF.
  pose proof (trailing_accepts_from br fuel 0) as Hacc.
  destruct (trailing br 0 fuel) as [[e | ] | ] eqn:Ht.
  - split; [ discriminate | ].
    intros (k & Hk & [He Hno] & Hs).
    assert (X : Some (Some e) = Some None); [ | discriminate ].
    apply Hacc. exists k. split; [ lia | ]. split; [ assumption | ].
    intros i Hi. split; [ apply Hno; lia | ].
    apply (proj1 (spaces_before br k) Hs). lia.
  - split; [ | reflexivity ]. intros _.
    destruct (proj1 Hacc eq_refl) as (k & Hk & He & Hall).
    exists k. split; [ lia | ]. split.
    + split; [ assumption | ]. intros i Hi. apply Hall. lia.
    + apply spaces_before. intros i Hi. apply Hall. lia.
  - split; [ discriminate | ].
    intros (k & Hk & [He Hno] & Hs).
    assert (X : @None (option decodeError) = Some None); [ | discriminate ].
    apply Hacc. exists k. split; [ lia | ]. split; [ assumption | ].
    intros i Hi. split; [ apply Hno; lia | ].
    apply (proj1 (spaces_before br k) Hs). lia.
Qed.

(** X12.  After a value has been decoded, [decode] returns an error
    exactly when, before any call of [Read] has reported [io.EOF], a
    byte arrives that is not white space; the error names the first such
    byte of all that was read, and the rest of the input is read and
    discarded if and only if [readAll] is set. *)
Theorem decode_rejects_iff (br : Reader) (readAll : bool) (fuel : nat)
    (e : decodeError) (drained : bool) :
  decode None br readAll fuel = Some (Some e, drained)
  <-> drained = readAll
      /\ exists k b pre post,
           (k < fuel)%nat
           /\ e = ErrTrailing b
           /\ (forall i, (i <= k)%nat -> err (br i) <> EOF)
           /\ data (br k) = (pre ++ b :: post)%list
           /\ spaces (before br k ++ pre)
           /\ isSpace b = false.
Proof.
  unfold decode.
  pose proof (trailing_rejects_from br fuel 0 e) as Hrej.
  assert (Hiff :
    trailing br 0 fuel = Some (Some e)
    <-> exists k b pre post,
          (k < fuel)%nat
          /\ e = ErrTrailing b
          /\ (forall i, (i <= k)%nat -> err (br i) <> EOF)
          /\ data (br k) = (pre ++ b :: post)%list
          /\ spaces (before br k ++ pre)
          /\ isSpace b = false).
  { rewrite Hrej. split.
    - intros (k & b & Hk & -> & He & Hf & Hall).
      apply firstNonSpace_Some in Hf as (pre & post & Hd & Hp & Hb).
      exists k, b, pre, post. split; [ lia | ]. split; [ reflexivity | ].
      split.
      + intros i Hi. destruct (Nat.eq_dec i k) as [-> | Hne];
          [ assumption | apply Hall; lia ].
      + split; [ assumption | ]. split; [ | assumption ].
        apply Forall_app. split; [ | assumption ].
        apply spaces_before. intros i Hi. apply Hall. lia.
    - intros (k & b & pre & post & Hk & -> & He & Hd & Hs & Hb).
      apply Forall_app in Hs as [Hbefore Hpre].
      exists k, b. split; [ lia | ]. split; [ reflexivity | ].
      split; [ apply He; lia | ]. split.
      + apply firstNonSpace_Some. exists pre, post. auto.
      + intros i Hi. split; [ apply He; lia | ].
        apply (proj1 (spaces_before br k) Hbefore). lia. }
  destruct (trailing br 0 fuel) as [[e' | ] | ] eqn:Ht.
  - split.
    + intros H. injection H as -> <-. split; [ reflexivity | ].
      apply Hiff. reflexivity.
    + intros [-> H]. apply Hiff in H. injection H as ->. reflexivity.
  - split; [ discriminate | ]. intros [_ H]. apply Hiff in H. discriminate.
  - split; [ discriminate | ]. intros [_ H]. apply Hiff in H. discriminate.
Qed.

(** X13.  [decode] comes back from its loop exactly when the reader at
    some call reports [io.EOF] or sends a byte that is not white space.
    A reader that does neither, such as one that fails on every call
    with another error, keeps it in the loop for good. *)
Theorem decode_returns_iff (br : Reader) (readAll : bool) :
  (exists fuel, decode None br readAll fuel <> None)
  <-> exists k, err (br k) = EOF \/ ~ spaces (data (br k)).
Proof.
  split.
  - intros [fuel H]. unfold decode in H.
    destruct (trailing br 0 fuel) as [[e | ] | ] eqn:Ht.
    + apply trailing_rejects_from in Ht as (k & b & _ & _ & _ & Hf & _).
      exists k. right. intros Hs. apply firstNonSpace_None in Hs. congruence.
    + apply trailing_accepts_from in Ht as (k & _ & He & _).
      exists k. auto.
    + contradiction.
  - intros [k Hk]. exists (S k). unfold decode.
    destruct (trailing br 0 (S k)) as [[e | ] | ] eqn:Ht; try discriminate.
    exfalso.
    destruct (proj1 (trailing_pending_from br (S k) 0) Ht k ltac:(lia))
      as [He Hs].
    destruct Hk; contradiction.
Qed.

(** X14.  [decode] returns as soon as a call of [Read] reports [io.EOF]
    and does not look at the bytes that came with that call; of any
    other call it checks the bytes and not the error.  Readers that
    agree on when [io.EOF] is reported and on the bytes of the other
    calls are treated alike. *)
Theorem decode_ignores (decoded : option string) (br br' : Reader)
    (readAll : bool) (fuel : nat) :
  (forall k, (err (br k) = EOF <-> err (br' k) = EOF)
             /\ (err (br k) <> EOF -> data (br k) = data (br' k))) ->
  decode decoded br readAll fuel = decode decoded br' readAll fuel.
Proof.
  intros H. unfold decode. rewrite (trailing_ext br br' H). reflexivity.
Qed.

End TrailingBytes.

(* ================================================================== *)
(** * Archive names: [Open] and [Walk] of package takeout *)

Module takeout_facts.
Import takeout.

Lemma append_assoc (a b c : string) :
  ((a ++ b) ++ c = a ++ (b ++ c))%string.
Proof. induction a as [ | x a IH ]; cbn; [ | rewrite IH ]; reflexivity. Qed.

Lemma length_append (a b : string) :
  String.length (a ++ b) = (String.length a + String.length b)%nat.
Proof. induction a as [ | x a IH ]; cbn; [ | rewrite IH ]; reflexivity. Qed.

Lemma literalThen_inv (p s r : string) :
  literalThen p s = Some r -> s = (p ++ r)%string.
Proof.
  revert s. induction p as [ | a p IH ]; intros s; cbn.
  - intros H. injection H as ->. reflexivity.
  - destruct s as [ | c s ]; [ discriminate | ].
    destruct (Ascii.eqb_spec c a) as [-> | ]; [ | discriminate ].
    intros H. rewrite (IH _ H). reflexivity.
Qed.

Lemma digitsThen_inv (n : nat) (s r : string) :
  digitsThen n s = Some r ->
  exists d, s = (d ++ r)%string /\ String.length d = n.
Proof.
  revert s. induction n as [ | n IH ]; intros s; cbn.
  - intros H. injection H as ->. exists "". auto.
  - destruct s as [ | c s ]; [ discriminate | ].
    destruct (strconv.isDigit c); [ | discriminate ].
    intros H. destruct (IH _ H) as (d & -> & Hd).
    exists (String c d). cbn. auto.
Qed.

(** A name that the pattern matches is [takeout-], a timestamp of
    sixteen bytes, a dash, a sequence number of three bytes, a period
    and [tgz] or [zip]. *)
Lemma exportPattern_inv (s : string) :
  exportPattern s = true ->
  exists ts seq ext,
    s = ("takeout-" ++ ts ++ "-" ++ seq ++ "." ++ ext)%string
    /\ String.length ts = 16%nat
    /\ String.length seq = 3%nat
    /\ (ext = "tgz" \/ ext = "zip").
Proof.
  unfold exportPattern, andThen. intros H.
  destruct (literalThen "takeout-" s) as [s1 | ] eqn:H1; [ | discriminate ].
  destruct (digitsThen 8 s1) as [s2 | ] eqn:H2; [ | discriminate ].
  destruct (literalThen "T" s2) as [s3 | ] eqn:H3; [ | discriminate ].
  destruct (digitsThen 6 s3) as [s4 | ] eqn:H4; [ | discriminate ].
  destruct (literalThen "Z-" s4) as [s5 | ] eqn:H5; [ | discriminate ].
  destruct (digitsThen 3 s5) as [s6 | ] eqn:H6; [ | discriminate ].
  destruct (literalThen "." s6) as [ext | ] eqn:H7; [ | discriminate ].
  apply literalThen_inv in H1, H3, H5, H7.
  apply digitsThen_inv in H2 as (d8 & H2 & L8).
  apply digitsThen_inv in H4 as (d6 & H4 & L6).
  apply digitsThen_inv in H6 as (d3 & H6 & L3).
  subst. exists (d8 ++ "T" ++ d6 ++ "Z")%string, d3, ext.
  split; [ | split; [ | split ] ].
  - rewrite !append_assoc. reflexivity.
  - rewrite !length_append, L8, L6. reflexivity.
  - exact L3.
  - apply orb_true_iff in H as [H | H]; apply String.eqb_eq in H; auto.
Qed.

Lemma length_rev_acc (s acc : string) :
  String.length (strings.rev_acc s acc)
  = (String.length s + String.length acc)%nat.
Proof.
  revert acc. induction s as [ | a s IH ]; intros acc; cbn;
    [ reflexivity | ].
  rewrite IH. cbn. lia.
Qed.

Lemma length_rev (s : string) :
  String.length (strings.rev s) = String.length s.
Proof. unfold strings.rev. rewrite length_rev_acc. cbn. lia. Qed.

Lemma length_stripSlashes (s : string) :
  (String.length (stripSlashes s) <= String.length s)%nat.
Proof.
  induction s as [ | a s IH ]; cbn; [ lia | ].
  destruct (Ascii.eqb_spec a "/") as [-> | Hne].
  - cbn. lia.
  - destruct a as [[] [] [] [] [] [] [] []]; cbn; try lia;
      exfalso; apply Hne; reflexivity.
Qed.

Lemma length_lastElement (s : string) :
  (String.length (lastElement s) <= String.length s)%nat.
Proof.
  induction s as [ | a s IH ]; cbn; [ lia | ].
  destruct (Ascii.eqb a "/"); cbn; lia.
Qed.

(** The last element of a path is not longer than the path, unless it is
    the period or the slash that stand for an empty one. *)
Lemma length_Base (path : string) :
  (String.length (Base path) <= Nat.max 1 (String.length path))%nat.
Proof.
  unfold Base.
  destruct (path =? "")%string; [ apply Nat.le_max_l | ].
  destruct (strings.rev (lastElement (stripSlashes (strings.rev path)))
            =? "")%string eqn:He; [ apply Nat.le_max_l | ].
  rewrite length_rev.
  pose proof (length_lastElement (stripSlashes (strings.rev path))).
  pose proof (length_stripSlashes (strings.rev path)).
  rewrite length_rev in *. lia.
Qed.

(** Names of a given length, byte by byte. *)
Ltac bytes s H :=
  repeat (destruct s as [ | ? s ]; cbn in H; try discriminate H).

End takeout_facts.

Section Takeout.

Import takeout takeout_facts.

Variable ParseTimestamp : string -> option time.Time.
Variable Glob : string -> option (list string).
Variable WalkZip WalkTgz : string -> option string.

Lemma slice_stem (s : string) (n : nat) :
  (n <= String.length s)%nat ->
  slice s 0 (strings.len s - Z.of_nat n)
  = Some (substring 0 (String.length s - n) s).
Proof.
  intros H. unfold slice, strings.len.
  replace (0 <=? 0) with true by reflexivity.
  destruct (Z.leb_spec 0 (Z.of_nat (String.length s) - Z.of_nat n));
    [ | lia ].
  destruct (Z.leb_spec (Z.of_nat (String.length s) - Z.of_nat n)
                       (Z.of_nat (String.length s))); [ | lia ].
  cbn [andb Z.to_nat]. f_equal. f_equal. lia.
Qed.

Lemma substring_append (a b : string) (n : nat) :
  substring 0 (String.length a + n) (a ++ b)
  = (a ++ substring 0 n b)%string.
Proof.
  induction a as [ | x a IH ]; cbn; [ reflexivity | ].
  rewrite IH. reflexivity.
Qed.

(** [Open] on a path whose last element matches the pattern: the slices
    are the timestamp, the sequence number and the extension, and what
    is left of the function. *)
Lemma Open_matched (filename : string) :
  exportPattern (Base filename) = true ->
  exists ts seq ext,
    Base filename = ("takeout-" ++ ts ++ "-" ++ seq ++ "." ++ ext)%string
    /\ String.length ts = 16%nat
    /\ String.length seq = 3%nat
    /\ (ext = "tgz" \/ ext = "zip")
    /\ (32 <= String.length filename)%nat
    /\ Open ParseTimestamp Glob filename
       = if negb (seq =? "001")%string then Fail (ErrSequence seq)
         else
           match ParseTimestamp ts with
           | None => Fail ErrTimestamp
           | Some t =>
               match Glob (substring 0 (String.length filename - 8) filename
                           ++ "-???." ++ ext)%string with
               | None => Fail ErrGlob
               | Some parts => Return (mkExport t ext parts)
               end
           end.
Proof.
  intros Hm.
  destruct (exportPattern_inv _ Hm) as (ts & seq & ext & Hb & Lt & Ls & He).
  exists ts, seq, ext.
  assert (Hlen : String.length (Base filename) = 32%nat).
  { rewrite Hb, !length_append, Lt, Ls.
    destruct He as [-> | ->]; reflexivity. }
  assert (Hf : (32 <= String.length filename)%nat).
  { pose proof (length_Base filename). lia. }
  repeat (split; [ assumption | ]).
  unfold Open. rewrite Hm. cbn [negb].
  assert (H1 : slice (Base filename) 8 24 = Some ts
               /\ slice (Base filename) 25 28 = Some seq
               /\ slice (Base filename) 29 (strings.len (Base filename))
                  = Some ext).
  { rewrite Hb. clear Hb Hm Hlen.
    bytes ts Lt. bytes seq Ls.
    destruct He as [-> | ->]; repeat split; vm_compute; reflexivity. }
  destruct H1 as (-> & -> & ->).
  destruct (negb (seq =? "001")%string); [ reflexivity | ].
  destruct (ParseTimestamp ts); [ | reflexivity ].
  change (strings.len "-001.ext") with (Z.of_nat 8).
  rewrite slice_stem by lia. reflexivity.
Qed.

(** X15.  [Open] never slices out of range: whatever the path, it
    returns an export or an error. *)
Theorem Open_never_panics (filename : string) :
  Open ParseTimestamp Glob filename <> Panic.
Proof.
  destruct (exportPattern (Base filename)) eqn:Hm.
  - destruct (Open_matched _ Hm) as (ts & seq & ext & _ & _ & _ & _ & _ & ->).
    destruct (negb (seq =? "001")%string); [ discriminate | ].
    destruct (ParseTimestamp ts); [ | discriminate ].
    destruct (Glob _); discriminate.
  - unfold Open. rewrite Hm. discriminate.
Qed.

(** What [Open] has computed when it returns an export. *)
Lemma Open_Return_parts (filename : string) (ex : Export) :
  Open ParseTimestamp Glob filename = Return ex ->
  (Ext ex = "tgz" \/ Ext ex = "zip")
  /\ exists ts,
       String.length ts = 16%nat
       /\ Base filename = ("takeout-" ++ ts ++ "-001." ++ Ext ex)%string
       /\ ParseTimestamp ts = Some (Time ex)
       /\ Glob (substring 0 (String.length filename - 8) filename
                ++ "-???." ++ Ext ex)%string = Some (Parts ex).
Proof.
  intros H.
  destruct (exportPattern (Base filename)) eqn:Hm;
    [ | unfold Open in H; rewrite Hm in H; discriminate ].
  destruct (Open_matched _ Hm)
    as (ts & seq & ext & Hb & Lt & Ls & He & Hf & Ho).
  rewrite Ho in H.
  destruct (String.eqb_spec seq "001") as [-> | ]; cbn [negb] in H;
    [ | discriminate ].
  destruct (ParseTimestamp ts) as [t | ] eqn:Hp; [ | discriminate ].
  destruct (Glob _) as [parts | ] eqn:Hg; [ | discriminate ].
  injection H as <-. cbn [Ext Time Parts].
  split; [ exact He | ]. exists ts.
  repeat (split; [ assumption | ]). exact Hg.
Qed.

(** The path without its last [n] bytes, when it is [dir] followed by
    [rest] and [rest] is by [n] bytes longer than [stem], its head. *)
Lemma stem_of_path (dir rest stem : string) (n k : nat) :
  String.length rest = (k + n)%nat ->
  substring 0 k rest = stem ->
  substring 0 (String.length (dir ++ rest) - n) (dir ++ rest)
  = (dir ++ stem)%string.
Proof.
  intros Hl Hs. rewrite length_append, Hl.
  replace (String.length dir + (k + n) - n)%nat
    with (String.length dir + k)%nat by lia.
  rewrite substring_append, Hs. reflexivity.
Qed.

(** X16.  [Open] returns an export only for a path whose last element
    is [takeout-], a timestamp of sixteen bytes that parses, [-001.] and
    [tgz] or [zip].  The export has that time and that extension, and
    its parts are what [filepath.Glob] finds for the path without its
    last eight bytes followed by [-???.] and the extension.  When the
    path ends in its last element (it has no slash after it), that
    pattern is the path itself with [???] for the sequence number. *)
Theorem Open_Return_inv (filename : string) (ex : Export) :
  Open ParseTimestamp Glob filename = Return ex ->
  (Ext ex = "tgz" \/ Ext ex = "zip")
  /\ exists ts,
       String.length ts = 16%nat
       /\ Base filename = ("takeout-" ++ ts ++ "-001." ++ Ext ex)%string
       /\ ParseTimestamp ts = Some (Time ex)
       /\ Glob (substring 0 (String.length filename - 8) filename
                ++ "-???." ++ Ext ex)%string = Some (Parts ex)
       /\ forall dir,
            filename = (dir ++ Base filename)%string ->
            Glob (dir ++ "takeout-" ++ ts ++ "-???." ++ Ext ex)%string
            = Some (Parts ex).
Proof.
  intros H.
  destruct (Open_Return_parts _ _ H) as (He & ts & Lt & Hb & Hp & Hg).
  split; [ exact He | ]. exists ts.
  repeat (split; [ assumption | ]).
  intros dir Hd.
  assert (Hstem : substring 0 (String.length filename - 8) filename
                  = (dir ++ "takeout-" ++ ts)%string).
  { rewrite Hd, Hb.
    apply (stem_of_path dir _ _ 8 24).
    - rewrite !length_append, Lt. destruct He as [-> | ->]; reflexivity.
    - clear Hb Hg Hd Hp. bytes ts Lt. reflexivity. }
  rewrite Hstem, append_assoc in Hg. exact Hg.
Qed.

(** X17.  A slash at the end of the path is dropped from the last
    element and not from the path that the pattern is made of: the eight
    bytes cut off then leave the hyphen before the sequence number in
    place, and the parts of the export are what [filepath.Glob] finds
    for a name with two hyphens there. *)
Theorem Open_trailing_slash (dir filename : string) (ex : Export) :
  filename = (dir ++ Base filename ++ "/")%string ->
  Open ParseTimestamp Glob filename = Return ex ->
  exists ts,
    Base filename = ("takeout-" ++ ts ++ "-001." ++ Ext ex)%string
    /\ Glob (dir ++ "takeout-" ++ ts ++ "--???." ++ Ext ex)%string
       = Some (Parts ex).
Proof.
  intros Hd H.
  destruct (Open_Return_parts _ _ H) as (He & ts & Lt & Hb & Hp & Hg).
  exists ts. split; [ exact Hb | ].
  assert (Hstem : substring 0 (String.length filename - 8) filename
                  = (dir ++ "takeout-" ++ ts ++ "-")%string).
  { rewrite Hd, Hb.
    apply (stem_of_path dir _ _ 8 25).
    - rewrite !length_append, Lt. destruct He as [-> | ->]; reflexivity.
    - clear Hb Hg Hd Hp. bytes ts Lt. reflexivity. }
  rewrite Hstem in Hg.
  rewrite !append_assoc in Hg. exact Hg.
Qed.

(** The loop of [Walk]: the walker is called on the parts in order, up
    to and including the first part on which it fails. *)
Lemma walkParts_spec (walker : string -> option string) (parts : list string) :
  exists rest,
    parts = (fst (walkParts walker parts) ++ rest)%list
    /\ match snd (walkParts walker parts) with
       | None =>
           rest = []
           /\ Forall (fun p => walker p = None) parts
       | Some e =>
           exists seen part msg,
             fst (walkParts walker parts) = (seen ++ [part])%list
             /\ Forall (fun p => walker p = None) seen
             /\ walker part = Some msg
             /\ e = ErrWalk msg
       end.
Proof.
  induction parts as [ | part parts IH ]; cbn.
  - exists []. split; [ reflexivity | ]. split; [ reflexivity | constructor ].
  - destruct (walker part) as [msg | ] eqn:Hw; cbn.
    + exists parts. split; [ reflexivity | ].
      exists [], part, msg. repeat split; auto.
    + destruct (walkParts walker parts) as [seen e]. cbn in *.
      destruct IH as (rest & Hp & He). exists rest.
      split; [ rewrite Hp at 1; reflexivity | ].
      destruct e as [e | ].
      * destruct He as (seen' & part' & msg & -> & Hs & Hw' & ->).
        exists (part :: seen'), part', msg.
        repeat split; auto.
      * destruct He as [-> Hs]. split; [ reflexivity | ].
        constructor; assumption.
Qed.

(** X18.  [Walk] refuses an export whose extension is neither [zip] nor
    [tgz] without visiting any part.  Otherwise it calls the walker of
    that extension on the parts in order and stops at the first part on
    which the walker fails, returning that error: the parts after it are
    not visited, and without a failure every part is visited. *)
Theorem Walk_visits_in_order (ex : Export) :
  let walker := if (Ext ex =? "zip")%string then WalkZip else WalkTgz in
  let seen := fst (Walk WalkZip WalkTgz ex) in
  match snd (Walk WalkZip WalkTgz ex) with
  | None =>
      (Ext ex = "zip" \/ Ext ex = "tgz")
      /\ seen = Parts ex
      /\ Forall (fun p => walker p = None) (Parts ex)
  | Some (ErrExtension x) =>
      x = Ext ex /\ Ext ex <> "zip" /\ Ext ex <> "tgz" /\ seen = []
  | Some e =>
      (Ext ex = "zip" \/ Ext ex = "tgz")
      /\ exists before part msg rest,
           Parts ex = (before ++ part :: rest)%list
           /\ seen = (before ++ [part])%list
           /\ Forall (fun p => walker p = None) before
           /\ walker part = Some msg
           /\ e = ErrWalk msg
  end.
Proof.
  cbv zeta. unfold Walk.
  assert (Hloop : forall walker,
    match snd (walkParts walker (Parts ex)) with
    | None =>
        fst (walkParts walker (Parts ex)) = Parts ex
        /\ Forall (fun p => walker p = None) (Parts ex)
    | Some e =>
        exists before part msg rest,
          Parts ex = (before ++ part :: rest)%list
          /\ fst (walkParts walker (Parts ex)) = (before ++ [part])%list
          /\ Forall (fun p => walker p = None) before
          /\ walker part = Some msg
          /\ e = ErrWalk msg
    end).
  { intros walker.
    destruct (walkParts_spec walker (Parts ex)) as (rest & Hp & He).
    destruct (snd (walkParts walker (Parts ex))) as [e | ].
    - destruct He as (seen & part & msg & Hs & Hn & Hw & ->).
      exists seen, part, msg, rest. repeat split; auto.
      rewrite Hp at 1. rewrite Hs, <- app_assoc. reflexivity.
    - destruct He as [-> Hn]. rewrite app_nil_r in Hp. auto. }
  destruct (String.eqb_spec (Ext ex) "zip") as [Hz | Hz].
  - specialize (Hloop WalkZip).
    destruct (snd (walkParts WalkZip (Parts ex))) as [e | ].
    + destruct Hloop as (b & p & m & r & H1 & H2 & H3 & H4 & ->).
      split; [ auto | ]. exists b, p, m, r. auto.
    + destruct Hloop. auto.
  - destruct (String.eqb_spec (Ext ex) "tgz") as [Ht | Ht].
    + specialize (Hloop WalkTgz).
      destruct (snd (walkParts WalkTgz (Parts ex))) as [e | ].
      * destruct Hloop as (b & p & m & r & H1 & H2 & H3 & H4 & ->).
        split; [ auto | ]. exists b, p, m, r. auto.
      * destruct Hloop. auto.
    + cbn. auto.
Qed.

(** X19.  An export that [Open] has returned is never refused by [Walk]
    for its extension. *)
Theorem Open_Walk_extension (filename : string) (ex : Export) :
  Open ParseTimestamp Glob filename = Return ex ->
  forall x, snd (Walk WalkZip WalkTgz ex) <> Some (ErrExtension x).
Proof.
  intros H x.
  destruct (Open_Return_parts _ _ H) as (He & _).
  unfold Walk.
  destruct (walkParts_spec WalkZip (Parts ex)) as (rz & _ & Hz).
  destruct (walkParts_spec WalkTgz (Parts ex)) as (rt & _ & Ht).
  destruct He as [-> | ->]; cbn.
  - destruct (snd (walkParts WalkTgz (Parts ex))); [ | discriminate ].
    destruct Ht as (? & ? & ? & _ & _ & _ & ->). discriminate.
  - destruct (snd (walkParts WalkZip (Parts ex))); [ | discriminate ].
    destruct Hz as (? & ? & ? & _ & _ & _ & ->). discriminate.
Qed.

End Takeout.

(* ================================================================== *)
(** * The further statements at the sample values *)

Section RunsMore.

Import Sample Sample2.

Local Existing Instance reference.

(** Six hours are within the range, and so is the duration made of
    them. *)
Lemma parseTimes_offset_fits_witness :
  parseTimes "1384634958041.754" "2013-11-16 14:49:18.041" "6"
  = Ok (instantA, 21600)
  /\ time.wrap64 (21600 * time.Second) = 21600 * time.Second.
Proof.
  assert (H : parseTimes "1384634958041.754" "2013-11-16 14:49:18.041" "6"
              = Ok (instantA, 21600)) by (vm_compute; reflexivity).
  split; [ exact H | ].
  destruct (@parseTimes_offset_fits _ reference _ _ _ _ _ H) as (_ & Hw & _).
  exact Hw.
Defined.

(** The record of the format description gives the same visit at the
    first record with its host and domain columns and at the second
    record with both left blank. *)
Lemma readAnalysisVisit_visit_columns_witness :
  URL visitA = "https://sub.example.com/a?b#c"
  /\ timefmt_Parse "1384634958041.754" = Some (VisitTime visitA)
  /\ PageTransitionFromString "link" = Some (Transition visitA)
  /\ PageTitle visitA = normalizeTitle "Example Domain".
Proof.
  destruct (@readAnalysisVisit_visit_columns _ reference
              readerFirst (adopted readerFirst 21600) readerSecond readerSecond
              "https://sub.example.com/a?b#c" "1384634958041.754" "link"
              "Example Domain"
              "sub.example.com" "example.com" "2013-11-16 14:49:18.041" "6"
              "" "" "2013-11-16 14:49:18.041" "6"
              visitA visitA
              ltac:(vm_compute; reflexivity) ltac:(vm_compute; reflexivity))
    as (_ & H).
  exact H.
Defined.

(** The export time of 09:30 UTC reads 09:30 in the zone six hours east
    after the first record, six hours earlier as an instant. *)
Lemma readAnalysisVisit_export_time_witness :
  let r' := fst (readAnalysisVisit readerFirst "https://sub.example.com/a?b#c"
                   "sub.example.com" "example.com" "1384634958041.754"
                   "2013-11-16 14:49:18.041" "6" "link" "Example Domain") in
  time.nanos (time r') = time.nanos exportTime - 21600 * time.Second
  /\ time.lookup (time.loc (time r')) 0 = 21600
  /\ time.abs (time r') = time.nanos exportTime / time.Second
  /\ tz r' = 21600.
Proof.
  destruct (@readAnalysisVisit_export_time _ reference readerFirst
              "https://sub.example.com/a?b#c" "sub.example.com" "example.com"
              "1384634958041.754" "2013-11-16 14:49:18.041" "6" "link"
              "Example Domain" instantA 21600
              eq_refl
              ltac:(vm_compute; reflexivity)
              ltac:(vm_compute; reflexivity))
    as (_ & Hn & Hz & Ha & Ht).
  cbv zeta. split; [ exact Hn | ]. split; [ exact (Hz 0) | ].
  split; [ exact Ha | exact Ht ].
Defined.

(** The record written for the visit of the format description. *)
Lemma writeAnalysisVisit_redundant_columns_witness :
  checkURL "https://sub.example.com/a?b#c" "sub.example.com" "example.com"
  = Ok tt
  /\ strconv.Atoi "6"
     = Some (time.Weekday (time.In (VisitTime visitA) (loc writerCST))).
Proof.
  destruct (@writeAnalysisVisit_redundant_columns _ reference writerCST visitA
              rowA ltac:(vm_compute; reflexivity))
    as (Hu & Hw & _).
  split; [ exact Hu | exact Hw ].
Defined.

(** The writer six hours west of UTC makes the reader keep 21600 and
    put the export time six hours east. *)
Lemma writeAnalysisVisit_offset_sign_witness :
  time.lookup (loc writerCST) (time.Unix (VisitTime visitA)) = - 21600
  /\ parseTimes "1384634958041.754" "2013-11-16 14:49:18.041" "6"
     = Ok (VisitTime visitA, 21600)
  /\ tz (fst (decodeRecord readerFirst rowA)) = 21600
  /\ time.lookup (time.loc (time (fst (decodeRecord readerFirst rowA)))) 0
     = 21600.
Proof.
  destruct (@writeAnalysisVisit_offset_sign _ reference writerCST visitA rowA
              ltac:(vm_compute; reflexivity)
              ltac:(vm_compute; reflexivity)
              ltac:(vm_compute; reflexivity)
              ltac:(vm_compute; split; reflexivity))
    as (Ht & Hr).
  destruct (Hr readerFirst eq_refl) as (Htz & Hz).
  split; [ reflexivity | ].
  split; [ exact Ht | ].
  split; [ exact Htz | exact (Hz 0) ].
Defined.

(** The first record of the format description, read again as record 5
    by the reader it has left behind. *)
Lemma readAnalysisVisit_again_witness :
  let r' := mkReader 5 (time (adopted readerFirst 21600)) 21600 in
  readAnalysisVisit r' "https://sub.example.com/a?b#c" "sub.example.com"
    "example.com" "1384634958041.754" "2013-11-16 14:49:18.041" "6" "link"
    "Example Domain"
  = (r', Ok visitA).
Proof.
  exact (@readAnalysisVisit_again _ reference readerFirst
           (adopted readerFirst 21600)
           "https://sub.example.com/a?b#c" "sub.example.com" "example.com"
           "1384634958041.754" "2013-11-16 14:49:18.041" "6" "link"
           "Example Domain" visitA 5
           eq_refl
           ltac:(vm_compute; reflexivity)
           ltac:(discriminate)).
Defined.

(** The two named types differ in their texts, and so do the numbered
    ones 0 and 255. *)
Lemma ExportType_String_injective_witness :
  ExportType_String AnalysisExport <> ExportType_String ArchivedExport
  /\ ExportType_String 0 <> ExportType_String 255.
Proof.
  split.
  - apply (ExportType_String_injective AnalysisExport ArchivedExport);
      [ unfold AnalysisExport; lia | unfold ArchivedExport; lia | discriminate ].
  - apply (ExportType_String_injective 0 255); [ lia | lia | discriminate ].
Defined.

(** A byte that comes with the end of the input is not looked at, and
    neither is the error of a call that is not the end. *)
Lemma decode_ignores_witness :
  jsonutil.decode None newlineThenByteAtEOF false 2
  = jsonutil.decode None newlineThenEOF false 2
  /\ jsonutil.decode None newlineThenEOF false 2 = Some (None, false).
Proof.
  split; [ | reflexivity ].
  apply (decode_ignores None newlineThenByteAtEOF newlineThenEOF false 2).
  intros [ | k ]; cbn.
  - split; [ split; discriminate | reflexivity ].
  - split; [ split; reflexivity | intros H; contradiction ].
Defined.

(** The first part of a two-part export: the pattern its parts are
    looked up with is the name of the archive with [???] for [001]. *)
Lemma Open_Return_inv_witness :
  let ex := takeout.mkExport (Ref.Date 2021 6 7 10 0 0 0) "zip"
              [ "/data/takeout-20210607T100000Z-001.zip";
                "/data/takeout-20210607T100000Z-002.zip" ] in
  takeout.Open parseTimestamp glob archiveName = takeout.Return ex
  /\ exists ts,
       takeout.Base archiveName = ("takeout-" ++ ts ++ "-001.zip")%string
       /\ parseTimestamp ts = Some (takeout.Time ex)
       /\ glob ("/data/" ++ "takeout-" ++ ts ++ "-???.zip")%string
          = Some (takeout.Parts ex).
Proof.
  cbv zeta.
  assert (H : takeout.Open parseTimestamp glob archiveName
              = takeout.Return
                  (takeout.mkExport (Ref.Date 2021 6 7 10 0 0 0) "zip"
                     [ "/data/takeout-20210607T100000Z-001.zip";
                       "/data/takeout-20210607T100000Z-002.zip" ]))
    by (vm_compute; reflexivity).
  split; [ exact H | ].
  destruct (Open_Return_inv parseTimestamp glob _ _ H)
    as (_ & ts & _ & Hb & Hp & _ & Hd).
  exists ts. split; [ exact Hb | ]. split; [ exact Hp | ].
  apply (Hd "/data/"). reflexivity.
Defined.

(** The same name with a slash after it: the pattern has two hyphens
    and finds nothing. *)
Lemma Open_trailing_slash_witness :
  takeout.Open parseTimestamp glob "/data/takeout-20210607T100000Z-001.zip/"
  = takeout.Return (takeout.mkExport (Ref.Date 2021 6 7 10 0 0 0) "zip" [])
  /\ exists ts,
       takeout.Base "/data/takeout-20210607T100000Z-001.zip/"
       = ("takeout-" ++ ts ++ "-001.zip")%string
       /\ glob ("/data/" ++ "takeout-" ++ ts ++ "--???.zip")%string = Some [].
Proof.
  assert (H : takeout.Open parseTimestamp glob
                "/data/takeout-20210607T100000Z-001.zip/"
              = takeout.Return
                  (takeout.mkExport (Ref.Date 2021 6 7 10 0 0 0) "zip" []))
    by (vm_compute; reflexivity).
  split; [ exact H | ].
  exact (Open_trailing_slash parseTimestamp glob "/data/" _ _ eq_refl H).
Defined.

(** The export of the sample archive is walked as a zip archive, part
    by part. *)
Lemma Open_Walk_extension_witness :
  let ex := takeout.mkExport (Ref.Date 2021 6 7 10 0 0 0) "zip"
              [ "/data/takeout-20210607T100000Z-001.zip";
                "/data/takeout-20210607T100000Z-002.zip" ] in
  takeout.Walk (fun _ => None) (fun _ => Some "not a tgz archive") ex
  = (takeout.Parts ex, None)
  /\ snd (takeout.Walk (fun _ => None) (fun _ => Some "not a tgz archive") ex)
     <> Some (takeout.ErrExtension "zip").
Proof.
  cbv zeta. split; [ reflexivity | ].
  apply (Open_Walk_extension parseTimestamp glob (fun _ => None)
           (fun _ => Some "not a tgz archive") archiveName).
  vm_compute; reflexivity.
Defined.

End RunsMore.
